(** * smartsheet-bot: discovery, monitoring and reference propagation

    A shallow embedding of the three scripts of the repository
    ([scripts/discovery.py], [scripts/monitor_and_duplicate.py] and
    [scripts/updater.py]) and the properties of them that the
    specification states.

    Conventions.
    - Python [str] values are [string]s; the text functions below describe
      the builtins on ASCII text.  Numbers are unbounded, and [int] and
      [str] convert them without the limit on the number of digits that an
      interpreter may be set to enforce.
    - A Python [dict] keeps its keys in insertion order; it is an
      association list without repeated keys, built with [dict_set] and
      [dict_setdefault_append].
    - The remote platform is a record of response functions, one per
      endpoint; a call either answers or raises.
    - A coroutine is a computation that records, in order, the remote calls
      it issues and the lines it prints, and that ends with a value or with
      a raised exception.  [await safe(f, ...)] is the call of [f]: the rate
      limiter and the executor change when a call happens, not what it
      answers.  The entry points are followed up to [asyncio.gather].
    - Sheet ids read from [mapping.json] are numbers, as discovery writes
      them, or texts; the updater slices them, which only a text allows, and
      gives them to the reference model of the SDK, which only takes a
      number. *)

From Stdlib Require Import List String Ascii ZArith Bool Lia Arith.
From Stdlib Require Import DecimalString DecimalZ.
Import ListNotations.

Set Warnings "-register-all".

Local Open Scope string_scope.
Local Open Scope Z_scope.
Local Open Scope list_scope.

(** ** Python text builtins *)

Module PyStr.

(** [str(n)] for an [int]. *)
Definition str_of_int (z : Z) : string :=
  NilZero.string_of_int (Z.to_int z).

Definition is_upper (c : ascii) : bool :=
  let n := nat_of_ascii c in (Nat.leb 65 n && Nat.leb n 90)%bool.

Definition lower_char (c : ascii) : ascii :=
  if is_upper c then ascii_of_nat (nat_of_ascii c + 32) else c.

(** [s.lower()] *)
Fixpoint lower (s : string) : string :=
  match s with
  | EmptyString => EmptyString
  | String c s' => String (lower_char c) (lower s')
  end.

(** [sub in s] *)
Fixpoint contains (sub s : string) : bool :=
  if String.prefix sub s then true
  else match s with
       | EmptyString => false
       | String _ s' => contains sub s'
       end.

(** [s[n:]] for [0 <= n] *)
Fixpoint drop (n : nat) (s : string) : string :=
  match n, s with
  | O, _ => s
  | S _, EmptyString => EmptyString
  | S n', String _ s' => drop n' s'
  end.

(** [s[-n:]], the last [n] characters (all of [s] when it is shorter) *)
Definition last_chars (n : nat) (s : string) : string :=
  drop (String.length s - n) s.

(** [str.isspace] on one ASCII character *)
Definition is_space (c : ascii) : bool :=
  let n := nat_of_ascii c in
  ((Nat.leb 9 n && Nat.leb n 13) || (Nat.leb 28 n && Nat.leb n 32))%bool.

Fixpoint lstrip (s : string) : string :=
  match s with
  | EmptyString => EmptyString
  | String c s' => if is_space c then lstrip s' else s
  end.

Fixpoint rstrip (s : string) : string :=
  match s with
  | EmptyString => EmptyString
  | String c s' =>
      match rstrip s' with
      | EmptyString => if is_space c then EmptyString else String c EmptyString
      | r => String c r
      end
  end.

(** [s.strip()] *)
Definition strip (s : string) : string := rstrip (lstrip s).

(** [s.startswith(p)] *)
Definition startswith (p s : string) : bool := String.prefix p s.

Definition digit_value (c : ascii) : option Z :=
  let n := nat_of_ascii c in
  if (Nat.leb 48 n && Nat.leb n 57)%bool then Some (Z.of_nat (n - 48)) else None.

(** The digits of a decimal literal, where one underscore may stand
    between two digits; [after_digit] tells whether the last character read
    was a digit. *)
Fixpoint digits (acc : Z) (after_digit : bool) (s : string) : option Z :=
  match s with
  | EmptyString => if after_digit then Some acc else None
  | String c s' =>
      match digit_value c with
      | Some d => digits (10 * acc + d) true s'
      | None =>
          if (Ascii.eqb c "_" && after_digit)%bool
          then digits acc false s'
          else None
      end
  end.

(** The white space that [int] passes over at the two ends of an ASCII
    text: the blank and the characters 9 to 13.  It is narrower than
    [str.isspace]: on the separators 28 to 31 [int] raises. *)
Definition is_int_space (c : ascii) : bool :=
  let n := nat_of_ascii c in
  ((Nat.leb 9 n && Nat.leb n 13) || Nat.eqb n 32)%bool.

Fixpoint int_lstrip (s : string) : string :=
  match s with
  | EmptyString => EmptyString
  | String c s' => if is_int_space c then int_lstrip s' else s
  end.

Fixpoint int_rstrip (s : string) : string :=
  match s with
  | EmptyString => EmptyString
  | String c s' =>
      match int_rstrip s' with
      | EmptyString => if is_int_space c then EmptyString else String c EmptyString
      | r => String c r
      end
  end.

(** [int(s)] for a [str]: [None] stands for [ValueError]. *)
Definition int_of_str (s : string) : option Z :=
  match int_rstrip (int_lstrip s) with
  | String "+" r => digits 0 false r
  | String "-" r => option_map Z.opp (digits 0 false r)
  | t => digits 0 false t
  end.

(** [s.split(sep)] for a one-character separator *)
Fixpoint split (sep : ascii) (s : string) : list string :=
  match s with
  | EmptyString => [EmptyString]
  | String c s' =>
      if Ascii.eqb c sep then EmptyString :: split sep s'
      else match split sep s' with
           | [] => [String c EmptyString]
           | w :: ws => String c w :: ws
           end
  end.

Fixpoint interleave (sep s : string) : string :=
  match s with
  | EmptyString => sep
  | String c s' => (sep ++ String c (interleave sep s'))%string
  end.

(** The scan of [s.replace(old, new)] for a non-empty [old]: [k] is the
    number of characters of the occurrence being replaced that are still
    to be passed over. *)
Fixpoint replace_scan (old new : string) (k : nat) (s : string) : string :=
  match s with
  | EmptyString => EmptyString
  | String c s' =>
      match k with
      | S k' => replace_scan old new k' s'
      | O =>
          if String.prefix old s
          then (new ++ replace_scan old new (String.length old - 1) s')%string
          else String c (replace_scan old new 0 s')
      end
  end.

(** [s.replace(old, new)]: every occurrence of [old], found left to right
    without overlap, becomes [new]. *)
Definition replace (old new s : string) : string :=
  match old with
  | EmptyString => interleave new s
  | _ => replace_scan old new 0 s
  end.

End PyStr.

(** ** Python dictionaries, in insertion order *)

Section Dict.
Context {K V : Type} (keq : K -> K -> bool).

Definition dict := list (K * V).

(** [d.get(k)] *)
Fixpoint dict_get (k : K) (d : dict) : option V :=
  match d with
  | [] => None
  | (k', v) :: d' => if keq k k' then Some v else dict_get k d'
  end.

(** [d[k] = v] *)
Fixpoint dict_set (k : K) (v : V) (d : dict) : dict :=
  match d with
  | [] => [(k, v)]
  | (k', v') :: d' =>
      if keq k k' then (k', v) :: d' else (k', v') :: dict_set k v d'
  end.

Definition dict_keys (d : dict) : list K := map fst d.
End Dict.

Arguments dict : clear implicits.

(** [d.setdefault(k, []).append(x)] *)
Fixpoint dict_setdefault_append {K A : Type} (keq : K -> K -> bool)
    (k : K) (x : A) (d : dict K (list A)) : dict K (list A) :=
  match d with
  | [] => [(k, [x])]
  | (k', l) :: d' =>
      if keq k k' then (k', l ++ [x]) :: d'
      else (k', l) :: dict_setdefault_append keq k x d'
  end.

(** ** discovery.py *)

Module Discovery.
Import PyStr.

(** What a workspace or folder listing says of a sheet; [modified_at] is
    [s.modified_at.isoformat()]. *)
Record sheet_info := {
  sheet_id : Z;
  sheet_name : string;
  modified_at : string
}.

(** A folder of the workspace as [Folders.get_folder] answers for it:
    its sheets and its subfolders, or an error. *)
Inductive folder :=
| FolderContents (folder_id : Z) (sheets : list sheet_info) (folders : list folder)
| FolderError (folder_id : Z) (err : string).

(** One summary field: its title and its display value. *)
Record summary_field := {
  sf_title : string;
  sf_display_value : option string
}.

(** The workspace as the run sees it: the answer of
    [Workspaces.get_workspace] and, for each sheet id, the answer of
    [Sheets.get_sheet_summary_fields] ([None] when the call raises). *)
Record workspace := {
  ws_sheets : list sheet_info;
  ws_folders : list folder;
  summary_fields : Z -> option (list summary_field)
}.

Definition copy_marker : string := " - copy".

(** What [.*$] leaves of the text after the marker: nothing when the text
    has no newline, the final newline when the first newline is the last
    character, and no match otherwise. *)
Fixpoint line_tail (s : string) : option string :=
  match s with
  | EmptyString => Some EmptyString
  | String c s' =>
      if Ascii.eqb c "010"%char
      then match s' with
           | EmptyString => Some s
           | _ => None
           end
      else line_tail s'
  end.

(** [re.sub(r' - Copy.*$', '', name, flags=re.I)] *)
Fixpoint sub_copy (s : string) : string :=
  match s with
  | EmptyString => EmptyString
  | String c s' =>
      if String.prefix copy_marker (lower s)
      then match line_tail (drop 7 s) with
           | Some rest => rest
           | None => String c (sub_copy s')
           end
      else String c (sub_copy s')
  end.

Definition normalise (name : string) : string := strip (sub_copy name).

Fixpoint get_folder_sheets_recursive (f : folder) : list sheet_info :=
  match f with
  | FolderError _ _ => []
  | FolderContents _ sheets folders =>
      sheets ++ flat_map get_folder_sheets_recursive folders
  end.

Definition get_all_sheets_recursive (w : workspace) : list sheet_info :=
  ws_sheets w ++ flat_map get_folder_sheets_recursive (ws_folders w).

(** The dict comprehension over the summary fields followed by
    [summary.get("OriginalSheetId")]: the last field of that title wins. *)
Definition summary_get (key : string) (fs : list summary_field) : option string :=
  match find (fun f => String.eqb (sf_title f) key) (rev fs) with
  | Some f => sf_display_value f
  | None => None
  end.

(** Steps 1 and 2 of the loop body: the group key of a sheet. *)
Definition group_key (w : workspace) (s : sheet_info) : string :=
  let src_id :=
    match summary_fields w (sheet_id s) with
    | Some fs => summary_get "OriginalSheetId" fs
    | None => None
    end in
  match src_id with
  | Some (String c k) => String c k
  | _ =>
      if contains "template" (lower (sheet_name s))
      then str_of_int (sheet_id s)
      else normalise (sheet_name s)
  end.

Definition mapping_t := dict string (list Z).
Definition cache_t := dict string string.

(** The loop of [build_index], one sheet at a time. *)
Fixpoint index_loop (w : workspace) (since_cache : cache_t)
    (all_sheets : list sheet_info) (acc : mapping_t * cache_t)
  : mapping_t * cache_t :=
  match all_sheets with
  | [] => acc
  | s :: rest =>
      let '(mapping, last_seen) := acc in
      let mod_ := modified_at s in
      let last_seen := dict_set String.eqb (str_of_int (sheet_id s)) mod_ last_seen in
      if match dict_get String.eqb (str_of_int (sheet_id s)) since_cache with
         | Some m => String.eqb m mod_
         | None => false
         end
      then index_loop w since_cache rest (mapping, last_seen)
      else index_loop w since_cache rest
             (dict_setdefault_append String.eqb (group_key w s) (sheet_id s) mapping,
              last_seen)
  end.

Definition build_index (w : workspace) (since_cache : cache_t)
  : mapping_t * cache_t :=
  index_loop w since_cache (get_all_sheets_recursive w) ([], []).

(** The key of a sheet in the change cache, and the statement
    [last_seen[str(s.id)] = mod] of the loop. *)
Definition cache_key (s : sheet_info) : string := str_of_int (sheet_id s).

Definition record_seen (last_seen : cache_t) (s : sheet_info) : cache_t :=
  dict_set String.eqb (cache_key s) (modified_at s) last_seen.

Definition entry_of (s : sheet_info) : string * string :=
  (cache_key s, modified_at s).

(** Two runs of the script in a row over the same workspace: the second
    one loads the [last_seen.json] that the first one saved. *)
Definition run_twice (w : workspace) (since_cache : cache_t)
  : (mapping_t * cache_t) * (mapping_t * cache_t) :=
  let first := build_index w since_cache in
  (first, build_index w (snd first)).

End Discovery.

(** ** Exceptions, remote calls and printed lines *)

Module Effects.

Inductive exn :=
| TypeError
| ValueError
| AttributeError
| FileNotFoundError
| ApiError (msg : string).

Inductive result (A : Type) :=
| Ok (a : A)
| Raise (e : exn).
Arguments Ok {A} a.
Arguments Raise {A} e.

(** A cell of a sheet: its display value and its formula, when it has one. *)
Record cell := {
  display_value : option string;
  formula : option string
}.

Record row := {
  row_id : Z;
  cells : list cell
}.

(** A sheet as [Sheets.get_sheet] answers; [columns] is [len(sheet.columns)]. *)
Record sheet := {
  rows : list row;
  total_row_count : option Z;
  columns : nat
}.

(** A cross-sheet reference of a sheet. *)
Record reference := {
  name : string;
  source_sheet_id : Z;
  start_row_id : Z;
  end_row_id : Z;
  start_column_id : Z;
  end_column_id : Z
}.

(** The answer of [Sheets.list_cross_sheet_references], by the attributes
    the scripts test with [hasattr]: an index result with [total_count]
    (which may hold [None]) and [data], an object with [data] only, or the
    bare list. *)
Inductive listing :=
| IndexResult (total_count : option Z) (data : list reference)
| DataOnly (data : list reference)
| Bare (items : list reference).

(** A sheet id as [mapping.json] may hold it: a number or a text. *)
Inductive pyval :=
| PInt (z : Z)
| PStr (s : string).

(** The properties that [process_rollup] gives to the
    [CrossSheetReference] model of the SDK. *)
Record reference_request := {
  req_name : string;
  req_source_sheet_id : pyval;
  req_start_row_id : Z;
  req_end_row_id : Z;
  req_start_column_id : Z;
  req_end_column_id : Z
}.

(** The endpoints of the platform that the scripts call through [safe]. *)
Inductive call :=
| CopySheet (src destination_id : Z) (new_name : string)
| UpdateSheetSummaryFields (sheet_id : Z) (original_sheet_id : string)
| GetSheet (sheet_id : Z)
| DeleteRows (sheet_id : Z) (row_ids : list Z)
| ListCrossSheetReferences (sheet_id : Z)
| CreateCrossSheetReference (sheet_id : Z) (r : reference_request)
| UpdateRows (sheet_id : Z) (rs : list row).

(** The calls that change something on the platform. *)
Definition is_write (c : call) : bool :=
  match c with
  | GetSheet _ | ListCrossSheetReferences _ => false
  | _ => true
  end.

(** The lines the scripts print. *)
Inductive message :=
| CopyError (e : exn)                (* Error copying sheet: e *)
| TagError (e : exn)                 (* Error adding OriginalSheetId tag: e *)
| DeleteError (e : exn)              (* Error deleting rows: e *)
| Duplicated (src new_id : Z)        (* Sheet src duplicated -> new_id (blank) due to errors *)
| CheckError (sheet_id : Z) (e : exn)  (* Error checking sheet sheet_id: e *)
| NothingToUpdate (rollup_id : Z)    (* Roll-up r: nothing to update *)
| WouldUpdate (rollup_id : Z) (n : nat)  (* Roll-up r: n rows would be updated (dry-run) *)
| Updated (rollup_id : Z) (n : nat)  (* Roll-up r: updated n rows *)
| NoRollupsSpecified                 (* No rollups specified - nothing to update *)
| UsingAutoDetected (n : nat)        (* Using n auto-detected rollup sheets *)
| NoAutoConfig                       (* No auto_rollup_config.json found. ... *)
| NoRollupSheets.                    (* No rollup sheets found - nothing to update *)

Inductive event :=
| Call (c : call)
| Print (m : message).

(** What the platform answers to each call during one run. *)
Record platform := {
  copy_sheet : Z -> Z -> string -> result Z;
  update_sheet_summary_fields : Z -> string -> result unit;
  get_sheet : Z -> result sheet;
  delete_rows : Z -> list Z -> result unit;
  list_cross_sheet_references : Z -> result listing;
  create_cross_sheet_reference : Z -> reference_request -> result string;
  update_rows : Z -> list row -> result unit
}.

(** A computation: the events it produced, in order, and how it ended. *)
Definition io (A : Type) : Type := list event * result A.

Definition ret {A} (a : A) : io A := ([], Ok a).

Definition raise {A} (e : exn) : io A := ([], Raise e).

Definition bind {A B} (m : io A) (f : A -> io B) : io B :=
  match m with
  | (t, Ok a) => let (t', r) := f a in (t ++ t', r)
  | (t, Raise e) => (t, Raise e)
  end.

(** [try: m  except Exception as e: handler e] *)
Definition try_except {A} (m : io A) (handler : exn -> io A) : io A :=
  match m with
  | (t, Raise e) => let (t', r) := handler e in (t ++ t', r)
  | ok => ok
  end.

Definition print (m : message) : io unit := ([Print m], Ok tt).

(** [await safe(fn, args)]: the call is issued and answers or raises. *)
Definition remote {A} (c : call) (answer : result A) : io A := ([Call c], answer).

Definition lift {A} (r : result A) : io A := ([], r).

Definition trace {A} (m : io A) : list event := fst m.
Definition outcome {A} (m : io A) : result A := snd m.

Definition prints (t : list event) : list message :=
  flat_map (fun e => match e with Print m => [m] | Call _ => [] end) t.

End Effects.

Arguments Effects.bind : simpl never.
Arguments Effects.try_except : simpl never.
Arguments Effects.remote : simpl never.
Arguments Effects.lift : simpl never.
Arguments Effects.ret : simpl never.
Arguments Effects.print : simpl never.

Declare Scope io_scope.
Delimit Scope io_scope with io.
Notation "x <- m ;; k" := (Effects.bind m (fun x => k))
  (at level 61, m at next level, right associativity) : io_scope.
Notation "m ;;; k" := (Effects.bind m (fun _ => k))
  (at level 61, right associativity) : io_scope.

(** ** monitor_and_duplicate.py *)

Module Monitor.
Import PyStr Effects.
Local Open Scope io_scope.

(** The configuration read from the environment, and the date that
    [dt.now()] formats into the name of a duplicate. *)
Record config := {
  ERR_CELL_LIMIT : Z;
  ERR_REF_LIMIT : Z;
  ERR_CELLCOUNT_LIMIT : Z;
  WS_ID : Z;
  today : string
}.

Definition default_config (ws : Z) (date : string) : config :=
  {| ERR_CELL_LIMIT := 1; ERR_REF_LIMIT := 95; ERR_CELLCOUNT_LIMIT := 4800000;
     WS_ID := ws; today := date |}.

Section WithPlatform.
Variable cfg : config.
Variable P : platform.

Definition duplicate_name (src_id : Z) : string :=
  (today cfg ++ " Duplicate of " ++ str_of_int src_id)%string.

(** The result is [None] where the coroutine returns [None]. *)
Definition duplicate_blank (src_id : Z) : io (option Z) :=
  copied <-
    try_except
      (new_id <- remote (CopySheet src_id (WS_ID cfg) (duplicate_name src_id))
                   (copy_sheet P src_id (WS_ID cfg) (duplicate_name src_id)) ;;
       ret (Some new_id))
      (fun e => print (CopyError e) ;;; ret None) ;;
  match copied with
  | None => ret None
  | Some new_id =>
      try_except
        (remote (UpdateSheetSummaryFields new_id (str_of_int src_id))
           (update_sheet_summary_fields P new_id (str_of_int src_id)))
        (fun e => print (TagError e)) ;;;
      try_except
        (sheet <- remote (GetSheet new_id) (get_sheet P new_id) ;;
         match rows sheet with
         | [] => ret tt
         | rs => remote (DeleteRows new_id (map row_id rs))
                   (delete_rows P new_id (map row_id rs))
         end)
        (fun e => print (DeleteError e)) ;;;
      print (Duplicated src_id new_id) ;;;
      ret (Some new_id)
  end.

(** The events of the tagging step of [duplicate_blank], given how the
    call answers. *)
Definition tag_events (new_id src_id : Z) : list event :=
  Call (UpdateSheetSummaryFields new_id (str_of_int src_id)) ::
  match update_sheet_summary_fields P new_id (str_of_int src_id) with
  | Ok _ => []
  | Raise e => [Print (TagError e)]
  end.

(** The events of the wiping step of [duplicate_blank], given how its
    calls answer. *)
Definition wipe_events (new_id : Z) : list event :=
  Call (GetSheet new_id) ::
  match get_sheet P new_id with
  | Raise e => [Print (DeleteError e)]
  | Ok sh =>
      match rows sh with
      | [] => []
      | rs =>
          Call (DeleteRows new_id (map row_id rs)) ::
          match delete_rows P new_id (map row_id rs) with
          | Ok _ => []
          | Raise e => [Print (DeleteError e)]
          end
      end
  end.

(** [c.display_value and str(c.display_value).startswith('#')] *)
Definition is_error_cell (c : cell) : bool :=
  match display_value c with
  | Some v => startswith "#" v
  | None => false
  end.

Definition err_cells (sh : sheet) : Z :=
  Z.of_nat (List.length
    (filter is_error_cell (flat_map cells (rows sh)))).

(** [refs.total_count if hasattr(refs, 'total_count') else
    (len(refs.data) if hasattr(refs, 'data') else 0)], compared with the
    limit; comparing [None] with a number raises. *)
Definition refs_saturated (refs : listing) : result bool :=
  match refs with
  | IndexResult (Some n) _ => Ok (ERR_REF_LIMIT cfg <=? n)
  | IndexResult None _ => Raise TypeError
  | DataOnly data => Ok (ERR_REF_LIMIT cfg <=? Z.of_nat (List.length data))
  | Bare _ => Ok (ERR_REF_LIMIT cfg <=? 0)
  end.

(** [(sheet.total_row_count or len(sheet.rows)) * len(sheet.columns)] *)
Definition cell_capacity (sh : sheet) : Z :=
  let row_count :=
    match total_row_count sh with
    | Some n => if n =? 0 then Z.of_nat (List.length (rows sh)) else n
    | None => Z.of_nat (List.length (rows sh))
    end in
  row_count * Z.of_nat (columns sh).

Definition needs_rollover (sheet_id : Z) : io bool :=
  try_except
    (sheet <- remote (GetSheet sheet_id) (get_sheet P sheet_id) ;;
     if ERR_CELL_LIMIT cfg <=? err_cells sheet then ret true
     else
       saturated <-
         try_except
           (refs <- remote (ListCrossSheetReferences sheet_id)
                      (list_cross_sheet_references P sheet_id) ;;
            lift (refs_saturated refs))
           (fun _ => ret false) ;;
       if saturated then ret true
       else if ERR_CELLCOUNT_LIMIT cfg <=? cell_capacity sheet then ret true
       else ret false)
    (fun e => print (CheckError sheet_id e) ;;; ret false).

(** [max(sheets)] and [min(sheets)]; both raise on an empty list. *)
Definition py_max (l : list Z) : result Z :=
  match l with
  | [] => Raise ValueError
  | x :: l' => Ok (fold_left Z.max l' x)
  end.

Definition py_min (l : list Z) : result Z :=
  match l with
  | [] => Raise ValueError
  | x :: l' => Ok (fold_left Z.min l' x)
  end.

Definition monitor_group (template_id : string) (sheets : list Z) : io unit :=
  latest <- lift (py_max sheets) ;;
  trip <- needs_rollover latest ;;
  if trip : bool then
    original_sheet_id <-
      match int_of_str template_id with
      | Some n => ret n
      | None => lift (py_min sheets)
      end ;;
    duplicate_blank original_sheet_id ;;;
    ret tt
  else ret tt.

(** [main] up to the point where it hands the groups to
    [asyncio.gather]: [mapping_file] is what [mapping.json] holds, [None]
    when the file does not exist.  The result is the list of the groups
    that are gathered. *)
Definition main (mapping_file : option (dict string (list Z)))
  : io (list (string * list Z)) :=
  match mapping_file with
  | None => raise FileNotFoundError
  | Some mapping => ret mapping
  end.

End WithPlatform.
End Monitor.

(** ** updater.py *)

Module Updater.
Import PyStr Effects.
Local Open Scope io_scope.

(** [iter(lambda: list(islice(it, n)), [])]: the batches of [n] items,
    up to the first empty one. *)
Fixpoint chunked_upto {A} (fuel n : nat) (l : list A) : list (list A) :=
  match fuel with
  | O => []
  | S fuel' =>
      match firstn n l with
      | [] => []
      | chunk => chunk :: chunked_upto fuel' n (skipn n l)
      end
  end.

Definition chunked {A} (n : nat) (l : list A) : list (list A) :=
  chunked_upto (List.length l) n l.

(** A formula that is present and not empty. *)
Definition truthy (f : option string) : option string :=
  match f with
  | Some (String c s) => Some (String c s)
  | _ => None
  end.

(** [[c.formula for r in sheet.rows for c in r.cells if c.formula]] *)
Definition formulas_of (sh : sheet) : list string :=
  flat_map (fun c => match truthy (formula c) with Some f => [f] | None => [] end)
    (flat_map cells (rows sh)).

Definition snoc (s : string) (c : ascii) : string :=
  (s ++ String c EmptyString)%string.

(** [re.findall(r'\{([^{}]+)\}', s)]: [pending] holds the characters read
    since the last opening brace, while no other brace was met. *)
Fixpoint scan_tokens (pending : option string) (s : string) : list string :=
  match s with
  | EmptyString => []
  | String c s' =>
      if Ascii.eqb c "{" then scan_tokens (Some EmptyString) s'
      else if Ascii.eqb c "}" then
        match pending with
        | Some (String a x) => String a x :: scan_tokens None s'
        | _ => scan_tokens None s'
        end
      else scan_tokens (option_map (fun p => snoc p c) pending) s'
  end.

Definition findall_tokens (s : string) : list string := scan_tokens None s.

Definition active_tokens (sh : sheet) : list string :=
  findall_tokens (String.concat " " (formulas_of sh)).

Definition items_of (l : listing) : list reference :=
  match l with
  | IndexResult _ data => data
  | DataOnly data => data
  | Bare items => items
  end.

Definition mem_string (x : string) (l : list string) : bool :=
  existsb (String.eqb x) l.

(** source sheet id -> the references to it that the formulas use *)
Definition group_by_source (active : list string) (refs : list reference)
  : dict Z (list reference) :=
  fold_left
    (fun d r =>
       if mem_string (name r) active
       then dict_setdefault_append Z.eqb (source_sheet_id r) r d
       else d)
    refs [].

Definition mapping_t := dict string (list pyval).
Definition repl_map_t := dict string (list string).

(** [dup in [r.source_sheet_id for r in refs]]; a text never equals a number. *)
Definition dup_in_sources (dup : pyval) (refs : list reference) : bool :=
  match dup with
  | PInt z => existsb (Z.eqb z) (map source_sheet_id refs)
  | PStr _ => false
  end.

(** [dup[-4:]]: a number cannot be sliced. *)
Definition dup_suffix (dup : pyval) : result string :=
  match dup with
  | PStr s => Ok (last_chars 4 s)
  | PInt _ => Raise TypeError
  end.

Definition clone_request (ref : reference) (dup : pyval) (suffix : string)
  : reference_request :=
  {| req_name := (name ref ++ "-dup-" ++ suffix)%string;
     req_source_sheet_id := dup;
     req_start_row_id := start_row_id ref;
     req_end_row_id := end_row_id ref;
     req_start_column_id := start_column_id ref;
     req_end_column_id := end_column_id ref |}.

(** [SDK.models.CrossSheetReference(props)]: the model keeps
    [source_sheet_id] in a number attribute, whose setter raises
    [ValueError] on a value that is neither an [int] nor a [float]. *)
Definition cross_sheet_reference (props : reference_request)
  : result reference_request :=
  match req_source_sheet_id props with
  | PInt _ => Ok props
  | PStr _ => Raise ValueError
  end.

(** [mapping.get(str(src_id), [])[1:]] *)
Definition dup_ids_of (mapping : mapping_t) (src_id : Z) : list pyval :=
  match dict_get String.eqb (str_of_int src_id) mapping with
  | Some l => tl l
  | None => []
  end.

(** The exception that the statement creating the reference for a
    duplicate raises before its call: the slice raises on a number, the
    model on a text. *)
Definition request_error (dup : pyval) : exn :=
  match dup with
  | PInt _ => TypeError
  | PStr _ => ValueError
  end.

(** The duplicates for which the loops reach the creation of a reference,
    in the order of the loops: for each source sheet with references in
    use, the ids of its group after the first that are the source of no
    reference. *)
Definition missing_dups (mapping : mapping_t) (refs : list reference)
    (src_to_refs : dict Z (list reference)) : list pyval :=
  flat_map
    (fun entry =>
       match snd entry with
       | [] => []
       | _ => filter (fun dup => negb (dup_in_sources dup refs))
                (dup_ids_of mapping (fst entry))
       end)
    src_to_refs.

Definition token (n : string) : string := ("{" ++ n ++ "}")%string.

(** [f"{{{old}}}, {{{new}}}"], what an old token becomes. *)
Definition appended (old new : string) : string :=
  (token old ++ ", " ++ token new)%string.

(** One turn of the inner loop of [patched]. *)
Definition patch_one (old : string) (out new : string) : string :=
  if contains (token new) out then out
  else replace (token old) (appended old new) out.

Definition patched (repl_map : repl_map_t) (text : string) : string :=
  fold_left (fun out entry => fold_left (patch_one (fst entry)) (snd entry) out)
    repl_map text.

(** The replacement map as the list of its pairs (old, new), in the order
    in which [patched] visits them. *)
Definition entries (repl_map : repl_map_t) : list (string * string) :=
  flat_map (fun entry => map (pair (fst entry)) (snd entry)) repl_map.

(** One turn of [patched] on a pair of the map. *)
Definition patch_entry (out : string) (e : string * string) : string :=
  patch_one (fst e) out (snd e).

Definition is_brace (c : ascii) : bool :=
  (Ascii.eqb c "{" || Ascii.eqb c "}")%bool.

(** A name without braces, as every name that the token pattern matches. *)
Fixpoint brace_free (s : string) : bool :=
  match s with
  | EmptyString => true
  | String c s' => (negb (is_brace c) && brace_free s')%bool
  end.

(** Every name of the map is free of braces, and no new name of the map
    is also one of its old names. *)
Definition names_brace_free (repl_map : repl_map_t) : bool :=
  forallb (fun e => (brace_free (fst e) && brace_free (snd e))%bool)
    (entries repl_map).

Definition braces_free_in (es : list (string * string)) : Prop :=
  forall e, In e es -> brace_free (fst e) = true /\ brace_free (snd e) = true.

Definition no_new_is_old (repl_map : repl_map_t) : bool :=
  forallb (fun e => negb (existsb (fun e' => String.eqb (snd e) (fst e'))
                            (entries repl_map)))
    (entries repl_map).

(** The loop over the cells of a row: the row with its formulas patched,
    and whether one of them changed. *)
Definition patch_cell (repl_map : repl_map_t) (c : cell) : cell * bool :=
  match truthy (formula c) with
  | Some f =>
      let newf := patched repl_map f in
      if String.eqb newf f then (c, false)
      else ({| display_value := display_value c; formula := Some newf |}, true)
  | None => (c, false)
  end.

Definition patch_row (repl_map : repl_map_t) (r : row) : row * bool :=
  let cs := map (patch_cell repl_map) (cells r) in
  ({| row_id := row_id r; cells := map fst cs |}, existsb snd cs).

Definition updates_of (repl_map : repl_map_t) (sh : sheet) : list row :=
  flat_map (fun r => let (r', changed) := patch_row repl_map r in
                     if changed then [r'] else [])
    (rows sh).

Section WithPlatform.
Variable P : platform.
Variable rollup_id : Z.

(** The loop over [ref_list] for one duplicate. *)
Fixpoint clone_refs (dup : pyval) (ref_list : list reference)
    (repl_map : repl_map_t) : io repl_map_t :=
  match ref_list with
  | [] => ret repl_map
  | ref :: rest =>
      suffix <- lift (dup_suffix dup) ;;
      request <- lift (cross_sheet_reference (clone_request ref dup suffix)) ;;
      new_name <- remote
        (CreateCrossSheetReference rollup_id request)
        (create_cross_sheet_reference P rollup_id request) ;;
      clone_refs dup rest
        (dict_setdefault_append String.eqb (name ref) new_name repl_map)
  end.

(** The loop over the duplicates of one source sheet. *)
Fixpoint clone_dups (refs ref_list : list reference) (dup_ids : list pyval)
    (repl_map : repl_map_t) : io repl_map_t :=
  match dup_ids with
  | [] => ret repl_map
  | dup :: rest =>
      if dup_in_sources dup refs then clone_dups refs ref_list rest repl_map
      else
        repl_map' <- clone_refs dup ref_list repl_map ;;
        clone_dups refs ref_list rest repl_map'
  end.

(** The loop over [src_to_refs.items()]. *)
Fixpoint clone_sources (mapping : mapping_t) (refs : list reference)
    (src_to_refs : dict Z (list reference)) (repl_map : repl_map_t)
  : io repl_map_t :=
  match src_to_refs with
  | [] => ret repl_map
  | (src_id, ref_list) :: rest =>
      repl_map' <- clone_dups refs ref_list (dup_ids_of mapping src_id) repl_map ;;
      clone_sources mapping refs rest repl_map'
  end.

(** The loop over the batches. *)
Fixpoint send_chunks (chunks : list (list row)) : io unit :=
  match chunks with
  | [] => ret tt
  | chunk :: rest =>
      remote (UpdateRows rollup_id chunk) (update_rows P rollup_id chunk) ;;;
      send_chunks rest
  end.

(** Steps 3 and 4: the formulas are patched in memory and the changed
    rows are sent, unless nothing was created or the run is a dry run. *)
Definition write_phase (sheet : sheet) (dry : bool) (repl_map : repl_map_t)
  : io unit :=
  match repl_map with
  | [] => print (NothingToUpdate rollup_id)
  | _ =>
      let updates := updates_of repl_map sheet in
      if dry then print (WouldUpdate rollup_id (List.length updates))
      else
        send_chunks (chunked 490 updates) ;;;
        print (Updated rollup_id (List.length updates))
  end.

(** Steps 1 and 2, up to the replacement map. *)
Definition clone_missing (mapping : mapping_t) (refs_result : listing)
    (sheet : sheet) : io repl_map_t :=
  let refs := items_of refs_result in
  clone_sources mapping refs (group_by_source (active_tokens sheet) refs) [].

Definition process_rollup (mapping : mapping_t) (dry : bool) : io unit :=
  refs_result <- remote (ListCrossSheetReferences rollup_id)
                   (list_cross_sheet_references P rollup_id) ;;
  sheet <- remote (GetSheet rollup_id) (get_sheet P rollup_id) ;;
  repl_map <- clone_missing mapping refs_result sheet ;;
  write_phase sheet dry repl_map.

(** A cell whose formula the patch changes. *)
Definition cell_changes (repl_map : repl_map_t) (c : cell) : Prop :=
  exists f, truthy (formula c) = Some f /\ patched repl_map f <> f.

End WithPlatform.

(** The command line of the script. *)
Record args := {
  arg_mapping : string;
  arg_rollups : option string;
  arg_dry_run : bool
}.

(** The files the script opens: each is [None] when it does not exist.
    [auto_rollup_config] holds the value of the key
    [auto_detected_rollup_ids], if the object has it. *)
Record files := {
  json_mapping : string -> option mapping_t;
  auto_rollup_config : option (option (list Z));
  text_lines : string -> option (list string)
}.

Fixpoint ints_of (parse : string -> option Z) (l : list string) : result (list Z) :=
  match l with
  | [] => Ok []
  | x :: l' =>
      match parse x with
      | None => Raise ValueError
      | Some n =>
          match ints_of parse l' with
          | Ok ns => Ok (n :: ns)
          | Raise e => Raise e
          end
      end
  end.

(** What [main] hands over to [asyncio.gather]. *)
Record gathered := {
  g_rollups : list Z;
  g_mapping : mapping_t;
  g_dry : bool
}.

(** [main] up to the point where it gathers one [process_rollup] per
    rollup; the result is [None] where it returns before that. *)
Definition main (fs : files) (a : args) : io (option gathered) :=
  mapping <- match json_mapping fs (arg_mapping a) with
             | Some m => ret m
             | None => raise FileNotFoundError
             end ;;
  selected <-
    match arg_rollups a with
    | None | Some EmptyString => print NoRollupsSpecified ;;; ret None
    | Some spec =>
        if String.eqb spec "auto" then
          match auto_rollup_config fs with
          | Some config =>
              let rollups := match config with Some ids => ids | None => [] end in
              print (UsingAutoDetected (List.length rollups)) ;;; ret (Some rollups)
          | None => print NoAutoConfig ;;; ret None
          end
        else if startswith "@" spec then
          match text_lines fs (drop 1 spec) with
          | Some lines =>
              rollups <- lift (ints_of (fun x => int_of_str (strip x)) lines) ;;
              ret (Some rollups)
          | None => raise FileNotFoundError
          end
        else
          rollups <- lift (ints_of int_of_str (split "," spec)) ;;
          ret (Some rollups)
    end ;;
  match selected with
  | None => ret None
  | Some [] => print NoRollupSheets ;;; ret None
  | Some rollups =>
      ret (Some {| g_rollups := rollups; g_mapping := mapping; g_dry := arg_dry_run a |})
  end.

End Updater.

(** ** Concrete inputs used in the examples *)

Module Examples.
Import Effects.

(** One template sheet at the root of the workspace, no summary fields. *)
Definition budget_template : Discovery.sheet_info :=
  {| Discovery.sheet_id := 1001;
     Discovery.sheet_name := "Budget Template";
     Discovery.modified_at := "2024-01-01T00:00:00" |}.

Definition one_sheet_workspace : Discovery.workspace :=
  {| Discovery.ws_sheets := [budget_template];
     Discovery.ws_folders := [];
     Discovery.summary_fields := fun _ => Some [] |}.

(** A template, and a duplicate of it in a folder; a second folder cannot
    be read. *)
Definition budget_copy : Discovery.sheet_info :=
  {| Discovery.sheet_id := 1002;
     Discovery.sheet_name := "Budget - Copy (1)";
     Discovery.modified_at := "2024-02-02T00:00:00" |}.

Definition two_sheet_workspace : Discovery.workspace :=
  {| Discovery.ws_sheets := [budget_template];
     Discovery.ws_folders :=
       [Discovery.FolderContents 10 [budget_copy] [];
        Discovery.FolderError 11 "denied"];
     Discovery.summary_fields := fun _ => None |}.

(** A cache that still holds a sheet that is gone from the workspace. *)
Definition stale_cache : Discovery.cache_t :=
  [("999", "2023-12-31T00:00:00"); ("1001", "2024-01-01T00:00:00")].

(** A sheet of three rows and two columns without error cells. *)
Definition plain_cell : cell := {| display_value := Some "42"; formula := None |}.

Definition small_sheet : sheet :=
  {| rows := [ {| row_id := 1; cells := [plain_cell; plain_cell] |};
               {| row_id := 2; cells := [plain_cell; plain_cell] |};
               {| row_id := 3; cells := [plain_cell; plain_cell] |} ];
     total_row_count := Some 3;
     columns := 2 |}.

(** A platform on which every call answers: a copy gets the id 2002 and
    every sheet reads as [small_sheet], with one cross-sheet reference. *)
Definition healthy : platform :=
  {| copy_sheet := fun _ _ _ => Ok 2002;
     update_sheet_summary_fields := fun _ _ => Ok tt;
     get_sheet := fun _ => Ok small_sheet;
     delete_rows := fun _ _ => Ok tt;
     list_cross_sheet_references := fun _ => Ok (IndexResult (Some 1) []);
     create_cross_sheet_reference := fun _ r => Ok (req_name r);
     update_rows := fun _ _ => Ok tt |}.

(** The same platform, where writing the summary field raises. *)
Definition tag_fails : platform :=
  {| copy_sheet := copy_sheet healthy;
     update_sheet_summary_fields := fun _ _ => Raise (ApiError "summary fields");
     get_sheet := get_sheet healthy;
     delete_rows := delete_rows healthy;
     list_cross_sheet_references := list_cross_sheet_references healthy;
     create_cross_sheet_reference := create_cross_sheet_reference healthy;
     update_rows := update_rows healthy |}.

(** The same platform, where listing the cross-sheet references raises. *)
Definition listing_fails : platform :=
  {| copy_sheet := copy_sheet healthy;
     update_sheet_summary_fields := update_sheet_summary_fields healthy;
     get_sheet := get_sheet healthy;
     delete_rows := delete_rows healthy;
     list_cross_sheet_references := fun _ => Raise (ApiError "references");
     create_cross_sheet_reference := create_cross_sheet_reference healthy;
     update_rows := update_rows healthy |}.

Definition monitor_config : Monitor.config :=
  Monitor.default_config 77 "2024-03-01".

(** A configuration whose cell-capacity limit is six cells, which
    [small_sheet] reaches. *)
Definition tight_config : Monitor.config :=
  {| Monitor.ERR_CELL_LIMIT := 1;
     Monitor.ERR_REF_LIMIT := 95;
     Monitor.ERR_CELLCOUNT_LIMIT := 6;
     Monitor.WS_ID := 77;
     Monitor.today := "2024-03-01" |}.

(** The rollup sheet of the end-to-end scenario: one reference,
    [BudgetRef], to the sheet 1001, used by one formula. *)
Definition budget_ref : reference :=
  {| name := "BudgetRef"; source_sheet_id := 1001;
     start_row_id := 11; end_row_id := 19;
     start_column_id := 21; end_column_id := 29 |}.

Definition rollup_sheet : sheet :=
  {| rows := [ {| row_id := 1;
                  cells := [ {| display_value := Some "Total"; formula := None |};
                             {| display_value := Some "42";
                                formula := Some "=SUM({BudgetRef})" |} ] |};
               {| row_id := 2; cells := [plain_cell; plain_cell] |} ];
     total_row_count := Some 2;
     columns := 2 |}.

(** A platform that holds the rollup sheet and gives a created reference
    the name that was asked for. *)
Definition rollup_platform : platform :=
  {| copy_sheet := copy_sheet healthy;
     update_sheet_summary_fields := update_sheet_summary_fields healthy;
     get_sheet := fun _ => Ok rollup_sheet;
     delete_rows := delete_rows healthy;
     list_cross_sheet_references := fun _ => Ok (IndexResult (Some 1) [budget_ref]);
     create_cross_sheet_reference := fun _ r => Ok (req_name r);
     update_rows := update_rows healthy |}.

(** [mapping.json] as discovery writes it, with numbers, and the same
    groups with the ids as texts. *)
Definition int_mapping : Updater.mapping_t :=
  [("1001", [PInt 1001; PInt 1002])].

Definition text_mapping : Updater.mapping_t :=
  [("1001", [PStr "1001"; PStr "1002"])].


Definition patched_row : row :=
  {| row_id := 1;
     cells := [ {| display_value := Some "Total"; formula := None |};
                {| display_value := Some "42";
                   formula := Some "=SUM({BudgetRef}, {BudgetRef-dup-1002})" |} ] |}.

(** A replacement map in which the new name of the second entry is the
    old name of the first, and one without such a chain. *)
Definition chained_map : Updater.repl_map_t :=
  [("B-dup-1002", ["B-dup-1002-dup-1003"]); ("B", ["B-dup-1002"])].

Definition braced_map : Updater.repl_map_t :=
  [("A", ["B}"]); ("B", ["C"])].

Definition budget_map : Updater.repl_map_t :=
  [("BudgetRef", ["BudgetRef-dup-1002"; "BudgetRef-dup-1003"])].

(** The files of a run of the updater: none exists, or only the mapping. *)
Definition no_files : Updater.files :=
  {| Updater.json_mapping := fun _ => None;
     Updater.auto_rollup_config := None;
     Updater.text_lines := fun _ => None |}.

Definition mapping_only : Updater.files :=
  {| Updater.json_mapping := fun _ => Some int_mapping;
     Updater.auto_rollup_config := None;
     Updater.text_lines := fun _ => None |}.

Definition args_auto : Updater.args :=
  {| Updater.arg_mapping := "mapping.json";
     Updater.arg_rollups := Some "auto";
     Updater.arg_dry_run := false |}.

Definition args_list : Updater.args :=
  {| Updater.arg_mapping := "mapping.json";
     Updater.arg_rollups := Some "500,501";
     Updater.arg_dry_run := true |}.

End Examples.

(** ** Vocabulary of the further properties *)

Module Tokens.
Local Open Scope string_scope.

(** The token [x] is completed by the text: [pending] holds its first
    characters and the text goes on with the others and a closing brace. *)
Definition completes (x : string) (pending : option string) (s : string) : Prop :=
  match pending with
  | Some p => exists q, x = p ++ q /\ String.prefix (q ++ "}") s = true
  | None => False
  end.

End Tokens.

Module Names.
Import PyStr.

(** A name without a newline. *)
Fixpoint single_line (s : string) : bool :=
  match s with
  | EmptyString => true
  | String c s' => (negb (Ascii.eqb c "010") && single_line s')%bool
  end.

Definition head_not_space (s : string) : bool :=
  match s with
  | EmptyString => true
  | String c _ => negb (is_space c)
  end.

End Names.

Module Digits.
Import PyStr.

Definition is_digit (c : ascii) : bool :=
  match digit_value c with Some _ => true | None => false end.

Definition digits_only (s : string) : bool :=
  forallb is_digit (list_ascii_of_string s).

(** A character of the decimal text of an id: a digit or the sign. *)
Definition id_char (c : ascii) : bool :=
  (is_digit c || Ascii.eqb c "-")%bool.

Definition id_text (s : string) : bool :=
  forallb id_char (list_ascii_of_string s).

(** A character that a text accepted by [int] may hold: a digit, a sign,
    an underscore or the white space at its ends. *)
Definition literal_char (c : ascii) : bool :=
  (is_digit c || Ascii.eqb c "+" || Ascii.eqb c "-" || Ascii.eqb c "_"
   || is_int_space c)%bool.

Definition literal_text (s : string) : bool :=
  forallb literal_char (list_ascii_of_string s).

End Digits.

Module Folders.
Import Discovery.

(** The sheet lies in the folder or below it, and every folder on the way
    down to it could be read. *)
Inductive listed (s : sheet_info) : folder -> Prop :=
| listed_here (folder_id : Z) (sheets : list sheet_info) (folders : list folder) :
    In s sheets -> listed s (FolderContents folder_id sheets folders)
| listed_below (folder_id : Z) (sheets : list sheet_info) (folders : list folder)
    (f : folder) :
    In f folders -> listed s f -> listed s (FolderContents folder_id sheets folders).

End Folders.

Module Groups.
Import Effects Discovery.

(** The test of the loop of [build_index]: the cache holds the live
    [modifiedAt] of the sheet. *)
Definition unchanged (since_cache : cache_t) (s : sheet_info) : bool :=
  match dict_get String.eqb (cache_key s) since_cache with
  | Some m => String.eqb m (modified_at s)
  | None => false
  end.

(** The ids, in the order of discovery, of the sheets that the run scans
    and whose group key is [k]. *)
Definition group_ids (w : workspace) (since_cache : cache_t) (k : string)
  : list Z :=
  map sheet_id
    (filter (fun s => (negb (unchanged since_cache s)
                       && String.eqb (group_key w s) k)%bool)
       (get_all_sheets_recursive w)).

(** One turn of the loop of [build_index] on the mapping. *)
Definition scan (w : workspace) (since_cache : cache_t)
    (mapping : mapping_t) (s : sheet_info) : mapping_t :=
  if unchanged since_cache s then mapping
  else dict_setdefault_append String.eqb (group_key w s) (sheet_id s) mapping.

(** What [json.loads] returns for the text of the change cache file: an
    object, by its fields in order, the keys distinct, or a value of another
    kind (a list, a text, a number, a boolean or null).  Of the value of a
    field it matters only whether it is a text, since it is compared with a
    [modifiedAt]. *)
Inductive json_field :=
| JText (s : string)
| JNotText.

Inductive json :=
| JObject (fields : list (string * json_field))
| JNotObject.

(** The change cache file as [load_cache] sees it: whether the path
    exists, the size of the file, and what [json.loads] makes of its text,
    [None] where it raises [JSONDecodeError]. *)
Record cache_file := {
  path_exists : bool;
  st_size : nat;
  parsed : option json
}.

Definition load_cache (f : cache_file) : json :=
  if (path_exists f && Nat.ltb 0 (st_size f))%bool then
    match parsed f with
    | Some v => v
    | None => JObject []
    end
  else JObject [].

(** The fields of an object that can equal a [modifiedAt]. *)
Definition texts_of (fields : list (string * json_field)) : cache_t :=
  flat_map (fun kv => match snd kv with
                      | JText s => [(fst kv, s)]
                      | JNotText => []
                      end) fields.

(** The first two statements of the script: the cache is loaded and given
    to [build_index].  On a value that is not an object the test
    [since_cache.get(...)] of the loop raises [AttributeError]; the loop
    reaches it when there is a sheet. *)
Definition discover (w : workspace) (f : cache_file)
  : result (mapping_t * cache_t) :=
  match load_cache f with
  | JObject fields => Ok (build_index w (texts_of fields))
  | JNotObject =>
      match get_all_sheets_recursive w with
      | [] => Ok ([], [])
      | _ => Raise AttributeError
      end
  end.

End Groups.

(** *** discovery.py: the detection of rollup sheets *)

Module Detection.
Import PyStr Effects Discovery.

(** [cell.formula] is there and holds both braces. *)
Definition has_cross_sheet_formula (c : cell) : bool :=
  match formula c with
  | Some f => (contains "{" f && contains "}" f)%bool
  | None => false
  end.

(** The two loops with their [break]s: some cell of some row has such a
    formula. *)
Definition has_cross_sheet_formulas (sh : sheet) : bool :=
  existsb (fun r => existsb has_cross_sheet_formula (cells r)) (rows sh).

(** What a run of the detection does: it fetches a sheet with its
    formulas, and it prints the line that announces a rollup sheet. *)
Inductive detect_event :=
| Fetched (sheet_id : Z)
| Announced (sheet_name : string) (sheet_id : Z).

(** The events of the run and the list it returns; a sheet whose fetch
    raises is passed over. *)
Fixpoint detect_rollup_sheets (P : platform) (all_sheets : list sheet_info)
  : list detect_event * list Z :=
  match all_sheets with
  | [] => ([], [])
  | s :: rest =>
      let (t, rollup_sheets) := detect_rollup_sheets P rest in
      match get_sheet P (sheet_id s) with
      | Ok sheet_data =>
          if has_cross_sheet_formulas sheet_data
          then (Fetched (sheet_id s) :: Announced (sheet_name s) (sheet_id s) :: t,
                sheet_id s :: rollup_sheets)
          else (Fetched (sheet_id s) :: t, rollup_sheets)
      | Raise _ => (Fetched (sheet_id s) :: t, rollup_sheets)
      end
  end.

(** The object that [save_rollup_config] writes; [now] is
    [dt.datetime.now().isoformat()]. *)
Record rollup_config := {
  auto_detected_rollup_ids : list Z;
  detected_at : string;
  count : nat
}.

Definition save_rollup_config (now : string) (rollup_ids : list Z)
  : rollup_config :=
  {| auto_detected_rollup_ids := rollup_ids;
     detected_at := now;
     count := List.length rollup_ids |}.

(** The files of the updater once the configuration is saved. *)
Definition with_config (fs : Updater.files) (c : rollup_config) : Updater.files :=
  {| Updater.json_mapping := Updater.json_mapping fs;
     Updater.auto_rollup_config := Some (Some (auto_detected_rollup_ids c));
     Updater.text_lines := Updater.text_lines fs |}.

(** The fetch answers with a sheet that has a formula with both braces. *)
Definition detected (P : platform) (s : sheet_info) : bool :=
  match get_sheet P (sheet_id s) with
  | Ok sheet_data => has_cross_sheet_formulas sheet_data
  | Raise _ => false
  end.

End Detection.

Module Batches.
Import Effects.

(** The call that sends one batch of rows of the rollup sheet. *)
Definition batch_call (rollup_id : Z) (chunk : list row) : event :=
  Call (UpdateRows rollup_id chunk).


(** The answer of the reference test of [needs_rollover]: the listing
    answered with a count that reaches the limit. *)
Definition saturated (cfg : Monitor.config) (P : platform) (sheet_id : Z) : bool :=
  match list_cross_sheet_references P sheet_id with
  | Ok refs =>
      match Monitor.refs_saturated cfg refs with
      | Ok b => b
      | Raise _ => false
      end
  | Raise _ => false
  end.

End Batches.

Module Ids.
Import Effects.

Definition is_int (v : pyval) : bool :=
  match v with PInt _ => true | PStr _ => false end.

(** A mapping all of whose sheet ids are numbers, as discovery writes it. *)
Definition int_ids (mapping : Updater.mapping_t) : bool :=
  forallb (fun kv => forallb is_int (snd kv)) mapping.

End Ids.

(** ** More concrete inputs *)

Module MoreExamples.
Import Effects.

(** A cache file cut short while it was written, and one that holds a
    JSON list. *)
Definition truncated_cache : Groups.cache_file :=
  {| Groups.path_exists := true; Groups.st_size := 12; Groups.parsed := None |}.

Definition list_cache : Groups.cache_file :=
  {| Groups.path_exists := true; Groups.st_size := 2;
     Groups.parsed := Some Groups.JNotObject |}.

(** A thousand changed rows. *)
Definition thousand_rows : list row :=
  map (fun i => {| row_id := Z.of_nat i; cells := [] |}) (seq 0 1000).

(** A platform that holds the rollup sheet of the scenario and raises on
    every write of rows. *)
Definition write_fails : platform :=
  {| copy_sheet := copy_sheet Examples.healthy;
     update_sheet_summary_fields := update_sheet_summary_fields Examples.healthy;
     get_sheet := get_sheet Examples.rollup_platform;
     delete_rows := delete_rows Examples.healthy;
     list_cross_sheet_references :=
       list_cross_sheet_references Examples.rollup_platform;
     create_cross_sheet_reference :=
       create_cross_sheet_reference Examples.rollup_platform;
     update_rows := fun _ _ => Raise (ApiError "rows") |}.

Definition scenario_map : Updater.repl_map_t :=
  [("BudgetRef", ["BudgetRef-dup-1002"])].

End MoreExamples.

(** ** Properties of dictionaries *)

Section DictFacts.
Context {K V : Type} (keq : K -> K -> bool).
Hypothesis keq_spec : forall a b, reflect (a = b) (keq a b).

Lemma dict_get_set (k k' : K) (v : V) (d : dict K V) :
  dict_get keq k (dict_set keq k' v d) =
  if keq k k' then Some v else dict_get keq k d.
Proof.
  induction d as [|[k0 v0] d IH]; simpl.
  - reflexivity.
  - destruct (keq_spec k' k0) as [->|Hne]; simpl.
    + destruct (keq_spec k k0); reflexivity.
    + rewrite IH. destruct (keq_spec k k0) as [->|Hne'].
      * destruct (keq_spec k0 k') as [E|_]; [congruence|reflexivity].
      * reflexivity.
Qed.

Lemma dict_keys_set (k k' : K) (v : V) (d : dict K V) :
  In k (dict_keys (dict_set keq k' v d)) <-> k = k' \/ In k (dict_keys d).
Proof.
  unfold dict_keys.
  induction d as [|[k0 v0] d IH]; simpl.
  - intuition.
  - destruct (keq_spec k' k0) as [->|Hne]; simpl.
    + intuition.
    + rewrite IH. intuition.
Qed.

Lemma dict_set_NoDup (k : K) (v : V) (d : dict K V) :
  NoDup (dict_keys d) -> NoDup (dict_keys (dict_set keq k v d)).
Proof.
  unfold dict_keys.
  induction d as [|[k0 v0] d IH]; simpl; intros Hnd.
  - constructor; [intros [] | constructor].
  - inversion Hnd as [|? ? Hnotin Hnd']; subst.
    destruct (keq_spec k k0) as [->|Hne]; simpl.
    + constructor; assumption.
    + constructor; [|auto].
      intros Hin. apply (dict_keys_set k0 k v d) in Hin.
      destruct Hin as [E|Hin]; [congruence | contradiction].
Qed.

Lemma dict_get_None (k : K) (d : dict K V) :
  ~ In k (dict_keys d) -> dict_get keq k d = None.
Proof.
  unfold dict_keys.
  induction d as [|[k0 v0] d IH]; simpl; intros Hnotin.
  - reflexivity.
  - destruct (keq_spec k k0) as [->|Hne]; [exfalso; auto | apply IH; auto].
Qed.

End DictFacts.

(** ** Properties of discovery *)

Section DiscoveryFacts.
Import PyStr Discovery.

Lemma to_int_proper (z : Z) :
  Z.to_int z <> Decimal.Pos Decimal.Nil /\ Z.to_int z <> Decimal.Neg Decimal.Nil.
Proof.
  destruct z as [|p|p]; simpl; split; try discriminate;
    intros [= E]; exact (DecimalPos.Unsigned.to_uint_nonnil p E).
Qed.

Lemma str_of_int_inj (a b : Z) : str_of_int a = str_of_int b -> a = b.
Proof.
  unfold str_of_int. intros H.
  destruct (to_int_proper a) as [Pa Na], (to_int_proper b) as [Pb Nb].
  pose proof (NilZero.isi _ Pa Na) as Sa.
  pose proof (NilZero.isi _ Pb Nb) as Sb.
  rewrite H in Sa. rewrite Sa in Sb. injection Sb as E.
  rewrite <- (DecimalZ.of_to a), <- (DecimalZ.of_to b), E. reflexivity.
Qed.

Lemma index_loop_last_seen w since_cache sheets mapping last_seen :
  snd (index_loop w since_cache sheets (mapping, last_seen)) =
  fold_left record_seen sheets last_seen.
Proof.
  revert mapping last_seen.
  induction sheets as [|s rest IH]; intros mapping last_seen; simpl.
  - reflexivity.
  - destruct (match dict_get String.eqb (str_of_int (sheet_id s)) since_cache with
              | Some m => String.eqb m (modified_at s)
              | None => false
              end); apply IH.
Qed.

Lemma cache_key_eqb (id : Z) (s : sheet_info) :
  String.eqb (str_of_int id) (cache_key s) = (sheet_id s =? id).
Proof.
  unfold cache_key.
  destruct (String.eqb_spec (str_of_int id) (str_of_int (sheet_id s))) as [E|N];
    destruct (Z.eqb_spec (sheet_id s) id) as [E'|N']; try reflexivity.
  - apply str_of_int_inj in E. congruence.
  - subst. congruence.
Qed.

Lemma fold_record_seen_get (sheets : list sheet_info) (last_seen : cache_t) (id : Z) :
  dict_get String.eqb (str_of_int id) (fold_left record_seen sheets last_seen) =
  match find (fun s => sheet_id s =? id) (rev sheets) with
  | Some s => Some (modified_at s)
  | None => dict_get String.eqb (str_of_int id) last_seen
  end.
Proof.
  induction sheets as [|s sheets IH] using rev_ind; simpl.
  - reflexivity.
  - rewrite fold_left_app, rev_app_distr. simpl.
    unfold record_seen at 1.
    rewrite (dict_get_set String.eqb String.eqb_spec), cache_key_eqb.
    destruct (sheet_id s =? id); [reflexivity | exact IH].
Qed.

Lemma fold_record_seen_keys (sheets : list sheet_info) (last_seen : cache_t) (k : string) :
  In k (dict_keys (fold_left record_seen sheets last_seen)) <->
  In k (dict_keys last_seen) \/ exists s, In s sheets /\ k = cache_key s.
Proof.
  revert last_seen.
  induction sheets as [|s sheets IH]; intros last_seen; simpl.
  - split; [auto | intros [H|[s [[] _]]]; exact H].
  - rewrite IH. unfold record_seen at 1.
    rewrite (dict_keys_set String.eqb String.eqb_spec).
    split.
    + intros [[E|H]|[s' [Hin E]]]; eauto.
    + intros [H|[s' [[E|Hin] E']]]; subst; eauto.
Qed.

Lemma fold_record_seen_NoDup (sheets : list sheet_info) (last_seen : cache_t) :
  NoDup (dict_keys last_seen) ->
  NoDup (dict_keys (fold_left record_seen sheets last_seen)).
Proof.
  revert last_seen.
  induction sheets as [|s sheets IH]; intros last_seen Hnd; simpl.
  - exact Hnd.
  - apply IH. apply (dict_set_NoDup String.eqb String.eqb_spec). exact Hnd.
Qed.

Lemma dict_set_fresh (k v : string) (d : cache_t) :
  ~ In k (dict_keys d) -> dict_set String.eqb k v d = d ++ [(k, v)].
Proof.
  unfold dict_keys.
  induction d as [|[k0 v0] d IH]; simpl; intros Hnotin.
  - reflexivity.
  - destruct (String.eqb_spec k k0) as [->|Hne].
    + exfalso; auto.
    + rewrite IH; auto.
Qed.

Lemma fold_record_seen_distinct (sheets : list sheet_info) (last_seen : cache_t) :
  NoDup (map sheet_id sheets) ->
  (forall s, In s sheets -> ~ In (cache_key s) (dict_keys last_seen)) ->
  fold_left record_seen sheets last_seen = last_seen ++ map entry_of sheets.
Proof.
  revert last_seen.
  induction sheets as [|s sheets IH]; intros last_seen Hnd Hfresh; simpl.
  - now rewrite app_nil_r.
  - inversion Hnd as [|? ? Hnotin Hnd']; subst.
    assert (Hs : record_seen last_seen s = last_seen ++ [entry_of s])
      by (apply dict_set_fresh, Hfresh; now left).
    rewrite Hs, IH; [now rewrite <- app_assoc | exact Hnd' |].
    intros s' Hin. unfold dict_keys. rewrite map_app, in_app_iff. simpl.
    intros [H|[E|[]]].
    + apply (Hfresh s'); [now right | exact H].
    + apply str_of_int_inj in E. apply Hnotin. rewrite E. now apply in_map.
Qed.

Lemma find_unique_id (sheets : list sheet_info) (s : sheet_info) :
  NoDup (map sheet_id sheets) -> In s sheets ->
  find (fun s' => sheet_id s' =? sheet_id s) sheets = Some s.
Proof.
  induction sheets as [|s0 sheets IH]; simpl; intros Hnd Hin.
  - contradiction.
  - inversion Hnd as [|? ? Hnotin Hnd']; subst.
    destruct Hin as [->|Hin].
    + now rewrite Z.eqb_refl.
    + destruct (Z.eqb_spec (sheet_id s0) (sheet_id s)) as [E|N].
      * exfalso. apply Hnotin. rewrite E. now apply in_map.
      * now apply IH.
Qed.

(** A sheet found in the cache with its live [modifiedAt] leaves the
    mapping as it is. *)
Lemma index_loop_all_cached w since_cache sheets mapping last_seen :
  (forall s, In s sheets ->
     dict_get String.eqb (cache_key s) since_cache = Some (modified_at s)) ->
  fst (index_loop w since_cache sheets (mapping, last_seen)) = mapping.
Proof.
  revert mapping last_seen.
  induction sheets as [|s rest IH]; intros mapping last_seen Hc; simpl.
  - reflexivity.
  - pose proof (Hc s (or_introl eq_refl)) as Hs. unfold cache_key in Hs.
    rewrite Hs, String.eqb_refl. apply IH. intros s' Hin. apply Hc. now right.
Qed.

(** The change cache that a run returns does not depend on the cache it
    was given. *)
Lemma build_index_last_seen w since_cache :
  snd (build_index w since_cache) =
  fold_left record_seen (get_all_sheets_recursive w) [].
Proof. unfold build_index. apply index_loop_last_seen. Qed.

(** With distinct sheet ids, a run that starts from the cache the previous
    run returned over the same workspace skips every sheet: its mapping is
    empty, whatever the previous mapping was. *)
Lemma second_run_mapping_empty (w : workspace) (since_cache : cache_t) :
  NoDup (map sheet_id (get_all_sheets_recursive w)) ->
  fst (build_index w (snd (build_index w since_cache))) = [].
Proof.
  intros Hnd. unfold build_index at 1.
  apply index_loop_all_cached. intros s Hin.
  rewrite build_index_last_seen. unfold cache_key.
  rewrite fold_record_seen_get.
  rewrite find_unique_id; [reflexivity | | rewrite <- in_rev; exact Hin].
  rewrite map_rev. apply NoDup_rev. exact Hnd.
Qed.

(** The change cache of the second run is the change cache of the first. *)
Lemma second_run_last_seen_same (w : workspace) (since_cache : cache_t) :
  snd (snd (run_twice w since_cache)) = snd (fst (run_twice w since_cache)).
Proof. unfold run_twice. simpl. now rewrite !build_index_last_seen. Qed.

(** C1 (the code departs from the claim).  Discovery over a workspace with
    the single sheet 1001, "Budget Template", started from an empty cache,
    returns the mapping [{"1001": [1001]}] and the cache
    [{"1001": "2024-01-01T00:00:00"}]; run again from that cache over the
    unchanged workspace, it returns the same cache and the empty mapping:
    the second [mapping.json] is not the first. *)
Theorem discovery_second_run_drops_mapping :
  run_twice Examples.one_sheet_workspace [] =
  (([("1001", [1001])], [("1001", "2024-01-01T00:00:00")]),
   ([], [("1001", "2024-01-01T00:00:00")])).
Proof. vm_compute. reflexivity. Qed.

(** C9.  The change cache that [build_index] returns has no repeated key;
    its keys are the ids of the sheets discovered in the run; the value at
    the id of a sheet is the [modifiedAt] the listing gives for it (of its
    last listing, should the platform list an id twice); a key that is the
    id of no discovered sheet is absent, whatever the previous cache held;
    and when the ids are distinct the cache is, entry for entry, the list of
    the discovered sheets. *)
Theorem build_index_last_seen_exact (w : workspace) (since_cache : cache_t) :
  let sheets := get_all_sheets_recursive w in
  let last_seen := snd (build_index w since_cache) in
  NoDup (dict_keys last_seen)
  /\ (forall k, In k (dict_keys last_seen) <->
                exists s, In s sheets /\ k = str_of_int (sheet_id s))
  /\ (forall id, dict_get String.eqb (str_of_int id) last_seen =
                 option_map modified_at
                   (find (fun s => sheet_id s =? id) (rev sheets)))
  /\ (forall k, (forall s, In s sheets -> str_of_int (sheet_id s) <> k) ->
                dict_get String.eqb k last_seen = None)
  /\ (NoDup (map sheet_id sheets) ->
      last_seen = map (fun s => (str_of_int (sheet_id s), modified_at s)) sheets).
Proof.
  intros sheets last_seen. subst last_seen. rewrite build_index_last_seen.
  fold sheets.
  assert (Hkeys : forall k, In k (dict_keys (fold_left record_seen sheets [])) <->
                            exists s, In s sheets /\ k = str_of_int (sheet_id s)).
  { intros k. rewrite fold_record_seen_keys. simpl.
    split; [intros [[]|H]; exact H | auto]. }
  split; [|split; [|split; [|split]]].
  - apply fold_record_seen_NoDup. constructor.
  - exact Hkeys.
  - intros id. rewrite fold_record_seen_get.
    destruct (find _ (rev sheets)); reflexivity.
  - intros k Hk. apply (dict_get_None String.eqb String.eqb_spec).
    rewrite Hkeys. intros [s [Hin E]]. exact (Hk s Hin (eq_sym E)).
  - intros Hnd. rewrite fold_record_seen_distinct; auto.
Qed.

Lemma build_index_last_seen_exact_witness :
  snd (build_index Examples.two_sheet_workspace Examples.stale_cache) =
    [("1001", "2024-01-01T00:00:00"); ("1002", "2024-02-02T00:00:00")]
  /\ dict_get String.eqb "999"
       (snd (build_index Examples.two_sheet_workspace Examples.stale_cache)) = None.
Proof.
  destruct (build_index_last_seen_exact Examples.two_sheet_workspace Examples.stale_cache)
    as (_ & _ & _ & Hgone & Hexact).
  split.
  - rewrite Hexact; [reflexivity |].
    vm_compute. constructor; [|constructor; [|constructor]]; simpl; intuition discriminate.
  - apply Hgone. vm_compute. intros s [<-|[<-|[]]]; discriminate.
Defined.

End DiscoveryFacts.

(** ** The text of an id *)

Section IntText.
Import PyStr Discovery Digits.
Local Open Scope string_scope.
Local Open Scope Z_scope.

Lemma is_digit_not_int_space (c : ascii) :
  is_digit c = true -> is_int_space c = false.
Proof.
  unfold is_digit, digit_value, is_int_space.
  destruct (Nat.leb 48 (nat_of_ascii c) && Nat.leb (nat_of_ascii c) 57)%bool eqn:H;
    [|discriminate].
  intros _. apply Bool.andb_true_iff in H. destruct H as [H1 H2].
  apply Nat.leb_le in H1, H2.
  apply Bool.orb_false_iff. split.
  - apply Bool.andb_false_iff. right. apply Nat.leb_gt. lia.
  - apply Nat.eqb_neq. lia.
Qed.

Lemma int_rstrip_no_space (s : string) :
  forallb (fun c => negb (is_int_space c)) (list_ascii_of_string s) = true ->
  int_rstrip s = s.
Proof.
  induction s as [|c s IH]; simpl; [reflexivity|].
  intros H. apply Bool.andb_true_iff in H. destruct H as [Hc Hs].
  rewrite (IH Hs). apply Bool.negb_true_iff in Hc. rewrite Hc.
  now destruct s.
Qed.

Lemma int_strip_no_space (s : string) :
  forallb (fun c => negb (is_int_space c)) (list_ascii_of_string s) = true ->
  int_rstrip (int_lstrip s) = s.
Proof.
  intros H.
  assert (E : int_lstrip s = s).
  { destruct s as [|c s]; [reflexivity|]. simpl in *.
    apply Bool.andb_true_iff in H. destruct H as [Hc _].
    apply Bool.negb_true_iff in Hc. now rewrite Hc. }
  rewrite E. now apply int_rstrip_no_space.
Qed.

Lemma string_of_uint_digits (d : Decimal.uint) :
  digits_only (NilEmpty.string_of_uint d) = true.
Proof. induction d; simpl; auto. Qed.

Lemma digits_cons_digit (acc k : Z) (b : bool) (c : ascii) (s : string) :
  digit_value c = Some k ->
  digits acc b (String c s) = digits (10 * acc + k) true s.
Proof. intros H. simpl. now rewrite H. Qed.

Lemma digits_acc (d : Decimal.uint) (acc : positive) :
  digits (Z.pos acc) true (NilEmpty.string_of_uint d) =
  Some (Z.pos (Pos.of_uint_acc d acc)).
Proof.
  revert acc. induction d; intros acc; simpl NilEmpty.string_of_uint;
    [reflexivity | ..];
    erewrite digits_cons_digit by reflexivity;
    cbn [Pos.of_uint_acc]; rewrite <- IHd; f_equal;
    match goal with
    | |- context [Z.of_nat ?n] =>
        let v := eval vm_compute in (Z.of_nat n) in change (Z.of_nat n) with v
    end; lia.
Qed.

Lemma digits_zero (d : Decimal.uint) (b : bool) :
  digits 0 b (NilEmpty.string_of_uint d) =
  match d with
  | Decimal.Nil => if b then Some 0 else None
  | _ => Some (Z.of_N (Pos.of_uint d))
  end.
Proof.
  revert b. induction d; intros b; simpl NilEmpty.string_of_uint;
    [reflexivity | ..];
    erewrite digits_cons_digit by reflexivity.
  - simpl Z.add. rewrite IHd. simpl Pos.of_uint. now destruct d.
  - apply digits_acc.
  - apply digits_acc.
  - apply digits_acc.
  - apply digits_acc.
  - apply digits_acc.
  - apply digits_acc.
  - apply digits_acc.
  - apply digits_acc.
  - apply digits_acc.
Qed.

Lemma digits_of_positive (p : positive) :
  digits 0 false (NilEmpty.string_of_uint (Pos.to_uint p)) = Some (Z.pos p).
Proof.
  rewrite digits_zero.
  pose proof (DecimalPos.Unsigned.to_uint_nonnil p) as Hn.
  pose proof (DecimalPos.Unsigned.of_to p) as Hp.
  destruct (Pos.to_uint p); [congruence | ..]; now rewrite Hp.
Qed.

Lemma digits_only_no_int_space (s : string) :
  digits_only s = true ->
  forallb (fun c => negb (is_int_space c)) (list_ascii_of_string s) = true.
Proof.
  unfold digits_only. rewrite !forallb_forall. intros H c Hc.
  apply Bool.negb_true_iff, is_digit_not_int_space, H, Hc.
Qed.

Lemma int_of_str_str_of_int (z : Z) : int_of_str (str_of_int z) = Some z.
Proof.
  unfold str_of_int, int_of_str.
  destruct z as [|p|p]; [reflexivity | |].
  - simpl Z.to_int. simpl NilZero.string_of_int. unfold NilZero.string_of_uint.
    pose proof (DecimalPos.Unsigned.to_uint_nonnil p) as Hn.
    pose proof (digits_of_positive p) as Hd.
    pose proof (string_of_uint_digits (Pos.to_uint p)) as Hs.
    destruct (Pos.to_uint p) eqn:E; [congruence | ..];
      (rewrite int_strip_no_space by (now apply digits_only_no_int_space));
      exact Hd.
  - simpl Z.to_int. simpl NilZero.string_of_int. unfold NilZero.string_of_uint.
    pose proof (DecimalPos.Unsigned.to_uint_nonnil p) as Hn.
    pose proof (digits_of_positive p) as Hd.
    pose proof (string_of_uint_digits (Pos.to_uint p)) as Hs.
    assert (Hstrip : forall s, digits_only s = true ->
                               int_rstrip (int_lstrip (String "-" s)) = String "-" s).
    { intros s H. apply int_strip_no_space.
      change (list_ascii_of_string (String "-" s))
        with ("-"%char :: list_ascii_of_string s).
      cbn [forallb]. rewrite (digits_only_no_int_space s H). reflexivity. }
    destruct (Pos.to_uint p) eqn:E; [congruence | ..];
      rewrite Hstrip by exact Hs; cbv iota beta; rewrite Hd; reflexivity.
Qed.

Lemma int_of_str_head (s : string) :
  int_of_str s =
  match int_rstrip (int_lstrip s) with
  | EmptyString => None
  | String a r =>
      if Ascii.eqb a "+" then digits 0 false r
      else if Ascii.eqb a "-" then option_map Z.opp (digits 0 false r)
      else digits 0 false (String a r)
  end.
Proof.
  unfold int_of_str.
  destruct (int_rstrip (int_lstrip s)) as [|[[] [] [] [] [] [] [] []] r];
    reflexivity.
Qed.

Lemma int_lstrip_keeps (c : ascii) (s : string) :
  is_int_space c = false ->
  In c (list_ascii_of_string s) -> In c (list_ascii_of_string (int_lstrip s)).
Proof.
  intros Hc. induction s as [|a s IH]; simpl; [auto|].
  intros [<-|Hin].
  - rewrite Hc. now left.
  - destruct (is_int_space a); [now apply IH | now right].
Qed.

Lemma int_rstrip_keeps (c : ascii) (s : string) :
  is_int_space c = false ->
  In c (list_ascii_of_string s) -> In c (list_ascii_of_string (int_rstrip s)).
Proof.
  intros Hc. induction s as [|a s IH]; simpl; [auto|].
  intros [<-|Hin].
  - destruct (int_rstrip s); [rewrite Hc|]; now left.
  - specialize (IH Hin). destruct (int_rstrip s) as [|b r]; [destruct IH|].
    now right.
Qed.

Lemma digits_stop (c : ascii) (s : string) (acc : Z) (b : bool) :
  is_digit c = false -> c <> "_"%char ->
  In c (list_ascii_of_string s) -> digits acc b s = None.
Proof.
  intros Hd Hu. revert acc b. induction s as [|a s IH]; intros acc b; simpl;
    [intros []|].
  intros [->|Hin].
  - unfold is_digit in Hd. destruct (digit_value c); [discriminate|].
    destruct (Ascii.eqb_spec c "_"); [contradiction | reflexivity].
  - destruct (digit_value a); [now apply IH|].
    destruct (Ascii.eqb a "_" && b)%bool; [now apply IH | reflexivity].
Qed.

(** A text with a character that no literal holds is refused by [int]. *)
Lemma int_of_str_not_literal (s : string) :
  literal_text s = false -> int_of_str s = None.
Proof.
  intros H. unfold literal_text in H.
  assert (Hex : exists c, In c (list_ascii_of_string s) /\ literal_char c = false).
  { induction (list_ascii_of_string s) as [|a l IH]; [discriminate|].
    simpl in H. apply Bool.andb_false_iff in H. destruct H as [H|H].
    - exists a. split; [now left | exact H].
    - destruct (IH H) as (c & Hc & Hl). exists c. split; [now right | exact Hl]. }
  destruct Hex as (c & Hin & Hl). unfold literal_char in Hl.
  apply Bool.orb_false_iff in Hl. destruct Hl as [Hl Hspace].
  apply Bool.orb_false_iff in Hl. destruct Hl as [Hl Hu].
  apply Bool.orb_false_iff in Hl. destruct Hl as [Hl Hm].
  apply Bool.orb_false_iff in Hl. destruct Hl as [Hl Hp].
  assert (Hplus : c <> "+"%char) by (intros ->; discriminate).
  assert (Hminus : c <> "-"%char) by (intros ->; discriminate).
  assert (Hunder : c <> "_"%char) by (intros ->; discriminate).
  pose proof (int_rstrip_keeps c _ Hspace (int_lstrip_keeps c s Hspace Hin))
    as Hkept.
  rewrite int_of_str_head.
  destruct (int_rstrip (int_lstrip s)) as [|a r]; [reflexivity|].
  assert (Hall : digits 0 false (String a r) = None)
    by (now apply (digits_stop c)).
  destruct (Ascii.eqb_spec a "+") as [->|_].
  { destruct Hkept as [E|Hr]; [now symmetry in E|]. now apply (digits_stop c). }
  destruct (Ascii.eqb_spec a "-") as [->|_]; [|exact Hall].
  destruct Hkept as [E|Hr]; [now symmetry in E|].
  now rewrite (digits_stop c r 0 false Hl Hunder Hr).
Qed.

Lemma str_of_int_not_empty (z : Z) : str_of_int z <> "".
Proof.
  intros E. pose proof (int_of_str_str_of_int z) as H. rewrite E in H.
  discriminate.
Qed.

(** X13.  The decimal text of an id reads back, with [int], as the id.
    Hence the lineage tag round trips: a sheet whose summary field
    [OriginalSheetId] holds the text that [duplicate_blank] writes for the
    origin [n] gets the group key that [monitor_group] reads back as [n];
    and a sheet without a tag whose name holds "template" gets a key that
    reads back as its own id. *)
Theorem lineage_round_trip :
  (forall z, int_of_str (str_of_int z) = Some z)
  /\ (forall w s fs n,
        summary_fields w (sheet_id s) = Some fs ->
        summary_get "OriginalSheetId" fs = Some (str_of_int n) ->
        group_key w s = str_of_int n /\ int_of_str (group_key w s) = Some n)
  /\ (forall w s,
        (forall fs, summary_fields w (sheet_id s) = Some fs ->
                    summary_get "OriginalSheetId" fs = None) ->
        contains "template" (lower (sheet_name s)) = true ->
        int_of_str (group_key w s) = Some (sheet_id s)).
Proof.
  split; [exact int_of_str_str_of_int|]. split.
  - intros w s fs n Hfs Htag.
    assert (E : group_key w s = str_of_int n).
    { unfold group_key. rewrite Hfs, Htag.
      pose proof (str_of_int_not_empty n) as Hne.
      now destruct (str_of_int n). }
    split; [exact E|]. rewrite E. apply int_of_str_str_of_int.
  - intros w s Hnone Htpl.
    assert (E : group_key w s = str_of_int (sheet_id s)).
    { unfold group_key.
      destruct (summary_fields w (sheet_id s)) as [fs|] eqn:Hfs.
      - rewrite (Hnone fs eq_refl), Htpl. reflexivity.
      - now rewrite Htpl. }
    rewrite E. apply int_of_str_str_of_int.
Qed.

End IntText.

(** ** Properties of monitoring and duplication *)

Section MonitorFacts.
Import PyStr Effects Monitor.
Variable cfg : config.
Variable P : platform.

Lemma duplicate_blank_copied (src_id new_id : Z) :
  copy_sheet P src_id (WS_ID cfg) (duplicate_name cfg src_id) = Ok new_id ->
  duplicate_blank cfg P src_id =
  (Call (CopySheet src_id (WS_ID cfg) (duplicate_name cfg src_id)) ::
   tag_events P new_id src_id ++ wipe_events P new_id ++ [Print (Duplicated src_id new_id)],
   Ok (Some new_id)).
Proof.
  intros Hcopy. unfold duplicate_blank, tag_events, wipe_events.
  unfold remote, try_except, bind, print, ret. rewrite Hcopy. simpl.
  destruct (update_sheet_summary_fields P new_id (str_of_int src_id)) as [[]|e1];
    simpl;
    (destruct (get_sheet P new_id) as [sh|e2]; simpl;
     [ destruct (rows sh) as [|r rs]; simpl;
       [ reflexivity
       | destruct (delete_rows P new_id (row_id r :: map row_id rs)) as [[]|e3];
         reflexivity ]
     | reflexivity ]).
Qed.

Lemma duplicate_blank_copy_failed (src_id : Z) (e : exn) :
  copy_sheet P src_id (WS_ID cfg) (duplicate_name cfg src_id) = Raise e ->
  duplicate_blank cfg P src_id =
  ([Call (CopySheet src_id (WS_ID cfg) (duplicate_name cfg src_id));
    Print (CopyError e)], Ok None).
Proof.
  intros Hcopy. unfold duplicate_blank.
  unfold remote, try_except, bind, print, ret. rewrite Hcopy. reflexivity.
Qed.

(** C2, as amended.  Each of the three steps may fail and each failure is
    printed.  A failed copy ends the sequence: nothing else is called and
    the result is [None].  After a copy that answered, the tag call and the
    sheet fetch of the wipe are always issued, whatever the earlier step
    did; a failure of the tag or of the wipe is printed, the line
    "duplicated" is printed last, and the result is the new id. *)
Theorem duplicate_blank_outcomes (src_id : Z) :
  let copy := CopySheet src_id (WS_ID cfg) (duplicate_name cfg src_id) in
  match copy_sheet P src_id (WS_ID cfg) (duplicate_name cfg src_id) with
  | Raise e =>
      duplicate_blank cfg P src_id = ([Call copy; Print (CopyError e)], Ok None)
  | Ok new_id =>
      let run := duplicate_blank cfg P src_id in
      run = (Call copy :: tag_events P new_id src_id ++ wipe_events P new_id
                          ++ [Print (Duplicated src_id new_id)],
             Ok (Some new_id))
      /\ In (Call (UpdateSheetSummaryFields new_id (str_of_int src_id))) (trace run)
      /\ In (Call (GetSheet new_id)) (trace run)
      /\ In (Print (Duplicated src_id new_id)) (trace run)
      /\ (forall e, update_sheet_summary_fields P new_id (str_of_int src_id) = Raise e ->
                    In (Print (TagError e)) (trace run))
      /\ (forall e, get_sheet P new_id = Raise e ->
                    In (Print (DeleteError e)) (trace run))
      /\ (forall sh e, get_sheet P new_id = Ok sh -> rows sh <> [] ->
                       delete_rows P new_id (map row_id (rows sh)) = Raise e ->
                       In (Print (DeleteError e)) (trace run))
  end.
Proof.
  intros copy.
  destruct (copy_sheet P src_id (WS_ID cfg) (duplicate_name cfg src_id))
    as [new_id|e] eqn:Hcopy.
  - intros run. subst run. rewrite (duplicate_blank_copied _ _ Hcopy).
    unfold trace, fst.
    split; [reflexivity|].
    repeat split; intros; apply in_cons; rewrite !in_app_iff.
    + left. now left.
    + right. left. now left.
    + right. right. now left.
    + left. unfold tag_events. rewrite H. right. now left.
    + right. left. unfold wipe_events. rewrite H. right. now left.
    + right. left. unfold wipe_events. rewrite H.
      destruct (rows sh) as [|r rs] eqn:Hr; [congruence|].
      rewrite H1. right. right. now left.
  - exact (duplicate_blank_copy_failed _ _ Hcopy).
Qed.

Lemma needs_rollover_first_call (sheet_id : Z) :
  exists t b, needs_rollover cfg P sheet_id = (Call (GetSheet sheet_id) :: t, Ok b).
Proof.
  unfold needs_rollover, remote, try_except, bind, print, ret, lift.
  destruct (get_sheet P sheet_id) as [sh|e]; simpl.
  - destruct (ERR_CELL_LIMIT cfg <=? err_cells sh); simpl; [eauto|].
    destruct (list_cross_sheet_references P sheet_id) as [refs|e]; simpl.
    + destruct (refs_saturated cfg refs) as [[|]|e]; simpl; [eauto | |];
        destruct (ERR_CELLCOUNT_LIMIT cfg <=? cell_capacity sh); simpl; eauto.
    + destruct (ERR_CELLCOUNT_LIMIT cfg <=? cell_capacity sh); simpl; eauto.
  - eauto.
Qed.

Lemma duplicate_blank_first_call (src_id : Z) :
  exists t r, duplicate_blank cfg P src_id =
              (Call (CopySheet src_id (WS_ID cfg) (duplicate_name cfg src_id)) :: t, Ok r).
Proof.
  destruct (copy_sheet P src_id (WS_ID cfg) (duplicate_name cfg src_id))
    as [new_id|e] eqn:Hcopy.
  - rewrite (duplicate_blank_copied _ _ Hcopy). eauto.
  - rewrite (duplicate_blank_copy_failed _ _ Hcopy). eauto.
Qed.

Lemma fold_max_spec (l : list Z) (x : Z) :
  let m := fold_left Z.max l x in
  (m = x \/ In m l) /\ x <= m /\ forall y, In y l -> y <= m.
Proof.
  revert x. induction l as [|a l IH]; intros x; simpl.
  - split; [now left | split; [lia | intros y []]].
  - destruct (IH (Z.max x a)) as (Hin & Hle & Hall).
    split; [|split].
    + destruct Hin as [E|Hin]; [|now right; right].
      destruct (Z.max_spec x a) as [[_ E']|[_ E']]; rewrite E' in *;
        [right; left; now symmetry | now left].
    + lia.
    + intros y [<-|Hy]; [lia | now apply Hall].
Qed.

Lemma fold_min_spec (l : list Z) (x : Z) :
  let m := fold_left Z.min l x in
  (m = x \/ In m l) /\ m <= x /\ forall y, In y l -> m <= y.
Proof.
  revert x. induction l as [|a l IH]; intros x; simpl.
  - split; [now left | split; [lia | intros y []]].
  - destruct (IH (Z.min x a)) as (Hin & Hle & Hall).
    split; [|split].
    + destruct Hin as [E|Hin]; [|now right; right].
      destruct (Z.min_spec x a) as [[_ E']|[_ E']]; rewrite E' in *;
        [now left | right; left; now symmetry].
    + lia.
    + intros y [<-|Hy]; [lia | now apply Hall].
Qed.

Lemma py_max_spec (sheets : list Z) :
  sheets <> [] ->
  exists latest, py_max sheets = Ok latest /\ In latest sheets /\
                 forall x, In x sheets -> x <= latest.
Proof.
  destruct sheets as [|x l]; [congruence|]. intros _.
  destruct (fold_max_spec l x) as (Hin & Hle & Hall).
  exists (fold_left Z.max l x). simpl.
  split; [reflexivity|]. split.
  - destruct Hin as [E|Hin]; [left; now symmetry | now right].
  - intros y [<-|Hy]; [exact Hle | now apply Hall].
Qed.

Lemma py_min_spec (sheets : list Z) :
  sheets <> [] ->
  exists oldest, py_min sheets = Ok oldest /\ In oldest sheets /\
                 forall x, In x sheets -> oldest <= x.
Proof.
  destruct sheets as [|x l]; [congruence|]. intros _.
  destruct (fold_min_spec l x) as (Hin & Hle & Hall).
  exists (fold_left Z.min l x). simpl.
  split; [reflexivity|]. split.
  - destruct Hin as [E|Hin]; [left; now symmetry | now right].
  - intros y [<-|Hy]; [exact Hle | now apply Hall].
Qed.

(** C7.  For a group that is not empty, [monitor_group] checks the sheet
    [latest] with the greatest id of the group: its events are those of
    [needs_rollover latest], which start with the fetch of [latest].  When
    the check answers true they are followed by the events of
    [duplicate_blank origin], which start with the copy of [origin], where
    [origin] is the number the group key reads as when [int] accepts it and
    the least id of the group otherwise; when the check answers false
    nothing follows.  In particular a key that is the decimal text of a
    number [n], as [str(n)] writes it, gives the origin [n], in the group or
    not, and a key with a character that is not a digit, a sign, an
    underscore or white space, such as a normalised name with a letter,
    gives the least id of the group. *)
Theorem monitor_group_latest_and_origin (template_id : string) (sheets : list Z) :
  sheets <> [] ->
  exists latest origin trip,
    (In latest sheets /\ forall x, In x sheets -> x <= latest)
    /\ match int_of_str template_id with
       | Some n => origin = n
       | None => In origin sheets /\ forall x, In x sheets -> origin <= x
       end
    /\ (forall n, template_id = str_of_int n -> origin = n)
    /\ (Digits.literal_text template_id = false ->
        In origin sheets /\ forall x, In x sheets -> origin <= x)
    /\ outcome (needs_rollover cfg P latest) = Ok trip
    /\ (exists t, trace (needs_rollover cfg P latest) = Call (GetSheet latest) :: t)
    /\ (exists t, trace (duplicate_blank cfg P origin) =
                  Call (CopySheet origin (WS_ID cfg) (duplicate_name cfg origin)) :: t)
    /\ monitor_group cfg P template_id sheets =
       (trace (needs_rollover cfg P latest)
          ++ (if trip then trace (duplicate_blank cfg P origin) else []),
        Ok tt).
Proof.
  intros Hne.
  destruct (py_max_spec sheets Hne) as (latest & Hmax & Hin & Hall).
  destruct (py_min_spec sheets Hne) as (oldest & Hmin & Hin' & Hall').
  destruct (needs_rollover_first_call latest) as (t & trip & Hcheck).
  set (origin := match int_of_str template_id with Some n => n | None => oldest end).
  destruct (duplicate_blank_first_call origin) as (t' & r & Hdup).
  exists latest, origin, trip.
  split; [auto|]. split.
  { subst origin. destruct (int_of_str template_id); auto. }
  split.
  { intros n ->. subst origin. now rewrite int_of_str_str_of_int. }
  split.
  { intros Hname. subst origin.
    rewrite (int_of_str_not_literal template_id Hname). auto. }
  rewrite Hcheck, Hdup. unfold outcome, trace. simpl.
  split; [reflexivity|]. split; [eauto|]. split; [eauto|].
  unfold monitor_group, lift, bind. rewrite Hmax. simpl. rewrite Hcheck.
  destruct trip.
  - assert (Horigin :
        match int_of_str template_id with
        | Some n => ret n
        | None => ([], py_min sheets)
        end = ([], Ok origin)).
    { subst origin. destruct (int_of_str template_id); [reflexivity|].
      now rewrite Hmin. }
    rewrite Horigin. simpl. rewrite Hdup. simpl. now rewrite app_nil_r.
  - simpl. now rewrite app_nil_r.
Qed.

(** C10.  When the sheet fetch answers and the listing of the cross-sheet
    references raises, [needs_rollover] prints nothing and returns true
    exactly when the cell-error limit or the cell-capacity limit is
    reached: the reference limit plays no part.  When the cell-error limit
    is not reached, the events are the two reads and the result is the
    cell-capacity test. *)
Theorem needs_rollover_listing_failure (sheet_id : Z) (sh : sheet) (e : exn) :
  get_sheet P sheet_id = Ok sh ->
  list_cross_sheet_references P sheet_id = Raise e ->
  let run := needs_rollover cfg P sheet_id in
  outcome run = Ok ((ERR_CELL_LIMIT cfg <=? err_cells sh)
                    || (ERR_CELLCOUNT_LIMIT cfg <=? cell_capacity sh))%bool
  /\ prints (trace run) = []
  /\ (err_cells sh < ERR_CELL_LIMIT cfg ->
      run = ([Call (GetSheet sheet_id); Call (ListCrossSheetReferences sheet_id)],
             Ok (ERR_CELLCOUNT_LIMIT cfg <=? cell_capacity sh))).
Proof.
  intros Hsheet Hrefs run. subst run.
  unfold needs_rollover, remote, try_except, bind, print, ret, lift.
  rewrite Hsheet. simpl.
  destruct (Z.leb_spec (ERR_CELL_LIMIT cfg) (err_cells sh)) as [Hle|Hlt]; simpl.
  - repeat split. intros Hlt. lia.
  - rewrite Hrefs. simpl.
    destruct (ERR_CELLCOUNT_LIMIT cfg <=? cell_capacity sh); simpl;
      repeat split.
Qed.

End MonitorFacts.

Section MonitorExamples.
Import PyStr Effects Monitor Examples.

Lemma needs_rollover_listing_failure_witness :
  needs_rollover tight_config listing_fails 1002 =
  ([Call (GetSheet 1002); Call (ListCrossSheetReferences 1002)], Ok true).
Proof.
  refine (proj2 (proj2 (needs_rollover_listing_failure tight_config listing_fails
                          1002 small_sheet (ApiError "references")
                          eq_refl eq_refl)) _).
  vm_compute. reflexivity.
Defined.

Lemma monitor_group_latest_and_origin_witness :
  (exists latest origin trip,
     latest = 1003 /\ origin = 1001 /\ trip = true
     /\ monitor_group tight_config healthy "1001" [1002; 1003] =
        (trace (needs_rollover tight_config healthy latest)
           ++ (if trip then trace (duplicate_blank tight_config healthy origin) else []),
         Ok tt))
  /\ (exists latest origin trip,
        latest = 1002 /\ origin = 1001 /\ trip = true
        /\ monitor_group tight_config healthy "Budget" [1002; 1001] =
           (trace (needs_rollover tight_config healthy latest)
              ++ (if trip then trace (duplicate_blank tight_config healthy origin)
                  else []),
            Ok tt)).
Proof.
  split.
  - destruct (monitor_group_latest_and_origin tight_config healthy "1001" [1002; 1003])
      as (latest & origin & trip & (Hin & Hmax) & _ & Hnum & _ & Htrip & _ & _ & Hrun).
    + discriminate.
    + exists latest, origin, trip.
      assert (El : latest = 1003).
      { pose proof (Hmax 1003 (or_intror (or_introl eq_refl))).
        destruct Hin as [<-|[<-|[]]]; [lia | reflexivity]. }
      assert (Eo : origin = 1001) by (apply Hnum; reflexivity).
      subst latest origin.
      vm_compute in Htrip. injection Htrip as <-.
      split; [reflexivity|]. split; [reflexivity|]. split; [reflexivity|].
      exact Hrun.
  - destruct (monitor_group_latest_and_origin tight_config healthy "Budget" [1002; 1001])
      as (latest & origin & trip & (Hin & Hmax) & _ & _ & Hname & Htrip & _ & _ & Hrun).
    + discriminate.
    + exists latest, origin, trip.
      assert (El : latest = 1002).
      { pose proof (Hmax 1002 (or_introl eq_refl)).
        destruct Hin as [<-|[<-|[]]]; [reflexivity | lia]. }
      assert (Eo : origin = 1001).
      { destruct (Hname eq_refl) as [Ho Hmin].
        pose proof (Hmin 1001 (or_intror (or_introl eq_refl))).
        destruct Ho as [<-|[<-|[]]]; [lia | reflexivity]. }
      subst latest origin.
      vm_compute in Htrip. injection Htrip as <-.
      split; [reflexivity|]. split; [reflexivity|]. split; [reflexivity|].
      exact Hrun.
Defined.

Lemma duplicate_blank_outcomes_witness :
  outcome (duplicate_blank monitor_config tag_fails 1001) = Ok (Some 2002)
  /\ In (Print (TagError (ApiError "summary fields")))
        (trace (duplicate_blank monitor_config tag_fails 1001)).
Proof.
  destruct (duplicate_blank_outcomes monitor_config tag_fails 1001)
    as (Hrun & _ & _ & _ & Htag & _).
  split.
  - rewrite Hrun. reflexivity.
  - apply Htag. reflexivity.
Defined.

(** C2, as the claim states it, fails: on a platform where the copy
    answers with the id 2002 and the write of the summary field raises,
    [duplicate_blank 1001] goes on to fetch the copy and to delete its three
    rows, prints "duplicated" and returns 2002. *)
Lemma duplicate_blank_tag_failure_returns_id :
  update_sheet_summary_fields tag_fails 2002 "1001" = Raise (ApiError "summary fields")
  /\ duplicate_blank monitor_config tag_fails 1001 =
     ([Call (CopySheet 1001 77 "2024-03-01 Duplicate of 1001");
       Call (UpdateSheetSummaryFields 2002 "1001");
       Print (TagError (ApiError "summary fields"));
       Call (GetSheet 2002);
       Call (DeleteRows 2002 [1; 2; 3]);
       Print (Duplicated 1001 2002)],
      Ok (Some 2002)).
Proof. split; vm_compute; reflexivity. Qed.

End MonitorExamples.

(** ** Properties of the entry points *)

Section MainFacts.
Import PyStr Effects Examples.

(** Without the mapping file the updater raises at [open], whatever the
    other arguments are: nothing is printed and nothing is called. *)
Lemma updater_main_missing_mapping (fs : Updater.files) (a : Updater.args) :
  Updater.json_mapping fs (Updater.arg_mapping a) = None ->
  Updater.main fs a = ([], Raise FileNotFoundError).
Proof. intros H. unfold Updater.main. rewrite H. reflexivity. Qed.

(** The sibling path: with the mapping present, asking for the
    auto-detected rollups without their file prints the diagnostic and
    returns. *)
Lemma updater_main_missing_auto_config (fs : Updater.files) (a : Updater.args)
    (m : Updater.mapping_t) :
  Updater.json_mapping fs (Updater.arg_mapping a) = Some m ->
  Updater.arg_rollups a = Some "auto" ->
  Updater.auto_rollup_config fs = None ->
  Updater.main fs a = ([Print NoAutoConfig], Ok None).
Proof.
  intros Hm Ha Hc. unfold Updater.main. rewrite Hm, Ha, Hc. reflexivity.
Qed.

(** C6 (the code departs from the claim).  With no [mapping.json], the
    updater and the monitor both end with an uncaught [FileNotFoundError]
    and print no diagnostic, while the updater run with the mapping but
    without [auto_rollup_config.json] prints its diagnostic and returns. *)
Theorem main_missing_mapping_uncaught :
  Updater.main no_files args_list = ([], Raise FileNotFoundError)
  /\ Updater.main no_files args_auto = ([], Raise FileNotFoundError)
  /\ Monitor.main None = ([], Raise FileNotFoundError)
  /\ Updater.main mapping_only args_auto = ([Print NoAutoConfig], Ok None).
Proof. repeat split. Qed.

End MainFacts.

(** ** Properties of the reference propagation *)

Section UpdaterExamples.
Import PyStr Effects Updater Examples.

(** C3 (the code departs from the claim).  On the scenario of the claim,
    with the mapping [{"1001": [1001, 1002]}] as discovery writes it,
    [process_rollup] reads the references and the sheet and then raises
    [TypeError] at [dup[-4:]]: no reference is created and no formula is
    rewritten. *)
Theorem process_rollup_scenario_raises :
  process_rollup rollup_platform 500 int_mapping false =
  ([Call (ListCrossSheetReferences 500); Call (GetSheet 500)], Raise TypeError).
Proof. vm_compute. reflexivity. Qed.

(** The same scenario with the ids of the mapping as texts: the slice
    answers, and the reference model of the SDK raises [ValueError] on the
    text it is given as source sheet id.  No reference is created either. *)
Lemma process_rollup_scenario_with_text_ids_raises :
  process_rollup rollup_platform 500 text_mapping false =
  ([Call (ListCrossSheetReferences 500); Call (GetSheet 500)], Raise ValueError).
Proof. vm_compute. reflexivity. Qed.


End UpdaterExamples.

Section IoFacts.
Import Effects.
Context {A B : Type}.

Lemma trace_bind (m : io A) (f : A -> io B) :
  trace (bind m f) =
  trace m ++ match outcome m with Ok a => trace (f a) | Raise _ => [] end.
Proof.
  destruct m as [t [a|e]]; unfold bind, trace, outcome; simpl.
  - destruct (f a); reflexivity.
  - now rewrite app_nil_r.
Qed.

Lemma outcome_bind (m : io A) (f : A -> io B) :
  outcome (bind m f) =
  match outcome m with Ok a => outcome (f a) | Raise e => Raise e end.
Proof.
  destruct m as [t [a|e]]; unfold bind, trace, outcome; simpl.
  - destruct (f a); reflexivity.
  - reflexivity.
Qed.

Lemma io_eta (m : io A) : m = (trace m, outcome m).
Proof. now destruct m. Qed.

End IoFacts.

Section UpdaterFacts.
Import PyStr Effects Updater.
Variable P : platform.
Variable rollup_id : Z.

Lemma bind_ret_l {A B} (a : A) (f : A -> io B) : bind ([], Ok a) f = f a.
Proof. unfold bind. now destruct (f a). Qed.

(** The creation statement raises before its call, whatever the id is. *)
Lemma clone_refs_run (dup : pyval) (ref_list : list reference)
    (repl_map : repl_map_t) :
  clone_refs P rollup_id dup ref_list repl_map =
  match ref_list with
  | [] => ([], Ok repl_map)
  | _ => ([], Raise (request_error dup))
  end.
Proof. destruct ref_list; destruct dup; reflexivity. Qed.

Lemma clone_dups_run refs ref_list dup_ids repl_map :
  clone_dups P rollup_id refs ref_list dup_ids repl_map =
  ([], match ref_list with
       | [] => Ok repl_map
       | _ =>
           match filter (fun dup => negb (dup_in_sources dup refs)) dup_ids with
           | [] => Ok repl_map
           | dup :: _ => Raise (request_error dup)
           end
       end).
Proof.
  induction dup_ids as [|dup rest IH]; cbn [clone_dups filter].
  - now destruct ref_list.
  - destruct (dup_in_sources dup refs); cbn [negb]; [exact IH|].
    rewrite clone_refs_run. destruct ref_list as [|r l].
    + rewrite bind_ret_l. exact IH.
    + reflexivity.
Qed.

Lemma clone_sources_run mapping refs src_to_refs repl_map :
  clone_sources P rollup_id mapping refs src_to_refs repl_map =
  ([], match missing_dups mapping refs src_to_refs with
       | [] => Ok repl_map
       | dup :: _ => Raise (request_error dup)
       end).
Proof.
  induction src_to_refs as [|[src_id ref_list] rest IH];
    cbn [clone_sources]; [reflexivity|].
  rewrite clone_dups_run.
  change (missing_dups mapping refs ((src_id, ref_list) :: rest))
    with (match ref_list with
          | [] => []
          | _ => filter (fun dup => negb (dup_in_sources dup refs))
                   (dup_ids_of mapping src_id)
          end ++ missing_dups mapping refs rest).
  destruct ref_list as [|r l].
  - rewrite bind_ret_l. exact IH.
  - destruct (filter (fun dup => negb (dup_in_sources dup refs))
                (dup_ids_of mapping src_id)) as [|dup ds].
    + rewrite bind_ret_l. exact IH.
    + reflexivity.
Qed.




(** A row is among the updates when it is a row of the sheet, patched,
    one of whose formulas the patch changed. *)
Lemma updates_of_spec repl_map sheet (r' : row) :
  In r' (updates_of repl_map sheet) ->
  exists r, In r (rows sheet) /\ r' = fst (patch_row repl_map r)
            /\ Exists (cell_changes repl_map) (cells r).
Proof.
  unfold updates_of. rewrite in_flat_map. intros (r & Hr & Hin).
  exists r. split; [exact Hr|].
  destruct (patch_row repl_map r) as [r0 changed] eqn:Hp.
  destruct changed; [|contradiction]. destruct Hin as [<-|[]].
  split; [reflexivity|].
  unfold patch_row in Hp. injection Hp as _ Hex.
  apply existsb_exists in Hex. destruct Hex as ([c' b] & Hin & Hb).
  simpl in Hb. subst b. apply in_map_iff in Hin. destruct Hin as (c & Hc & Hin).
  apply Exists_exists. exists c. split; [exact Hin|].
  unfold patch_cell in Hc. unfold cell_changes.
  destruct (truthy (formula c)) as [f|]; [|discriminate].
  exists f. split; [reflexivity|].
  destruct (String.eqb_spec (patched repl_map f) f); [discriminate | assumption].
Qed.

(** The events of a run, by the answers to the two reads. *)
Lemma process_rollup_trace mapping dry :
  trace (process_rollup P rollup_id mapping dry) =
  Call (ListCrossSheetReferences rollup_id) ::
  match list_cross_sheet_references P rollup_id with
  | Raise _ => []
  | Ok refs_result =>
      Call (GetSheet rollup_id) ::
      match get_sheet P rollup_id with
      | Raise _ => []
      | Ok sheet =>
          let cl := clone_missing P rollup_id mapping refs_result sheet in
          trace cl ++
          match outcome cl with
          | Ok repl_map => trace (write_phase P rollup_id sheet dry repl_map)
          | Raise _ => []
          end
      end
  end.
Proof.
  unfold process_rollup. rewrite trace_bind. unfold remote at 1 2. simpl.
  destruct (list_cross_sheet_references P rollup_id) as [refs_result|e];
    [|reflexivity].
  rewrite trace_bind. unfold remote at 1 2. simpl.
  destruct (get_sheet P rollup_id) as [sheet|e]; [|reflexivity].
  now rewrite trace_bind.
Qed.

Lemma process_rollup_outcome mapping dry :
  outcome (process_rollup P rollup_id mapping dry) =
  match list_cross_sheet_references P rollup_id with
  | Raise e => Raise e
  | Ok refs_result =>
      match get_sheet P rollup_id with
      | Raise e => Raise e
      | Ok sheet =>
          match outcome (clone_missing P rollup_id mapping refs_result sheet) with
          | Ok repl_map => outcome (write_phase P rollup_id sheet dry repl_map)
          | Raise e => Raise e
          end
      end
  end.
Proof.
  unfold process_rollup. rewrite outcome_bind. unfold remote at 1. simpl.
  destruct (list_cross_sheet_references P rollup_id) as [refs_result|e];
    [|reflexivity].
  rewrite outcome_bind. unfold remote at 1. simpl.
  destruct (get_sheet P rollup_id) as [sheet|e]; [|reflexivity].
  now rewrite outcome_bind.
Qed.





End UpdaterFacts.

Section UpdaterWitnesses.
Import PyStr Effects Updater Examples.


End UpdaterWitnesses.

(** ** Properties of texts and tokens *)

Section TextFacts.
Import PyStr Updater.
Local Open Scope string_scope.
Local Arguments String.prefix : simpl never.
Local Arguments contains : simpl never.
Local Arguments replace_scan : simpl never.

Lemma append_assoc (a b c : string) : (a ++ b) ++ c = a ++ (b ++ c).
Proof. induction a as [|x a IH]; simpl; [reflexivity | now rewrite IH]. Qed.

Lemma append_nil_r (a : string) : a ++ "" = a.
Proof. induction a as [|x a IH]; simpl; [reflexivity | now rewrite IH]. Qed.

Lemma token_cons (n : string) : token n = String "{" (n ++ "}").
Proof. reflexivity. Qed.

Lemma prefix_nil (s : string) : String.prefix "" s = true.
Proof. now destruct s. Qed.

Lemma prefix_cons (a c : ascii) (p s : string) :
  String.prefix (String a p) (String c s) =
  if ascii_dec a c then String.prefix p s else false.
Proof. reflexivity. Qed.

Lemma prefix_of_nil (a : ascii) (p : string) : String.prefix (String a p) "" = false.
Proof. reflexivity. Qed.

Lemma prefix_app (p r : string) : String.prefix p (p ++ r) = true.
Proof.
  induction p as [|c p IH]; simpl append; [apply prefix_nil|].
  rewrite prefix_cons. destruct (ascii_dec c c); [exact IH | congruence].
Qed.

Lemma prefix_split (p s : string) :
  String.prefix p s = true -> exists r, s = p ++ r.
Proof.
  revert s. induction p as [|c p IH]; intros s.
  - intros _. now exists s.
  - destruct s as [|d s]; [rewrite prefix_of_nil; discriminate|].
    rewrite prefix_cons.
    destruct (ascii_dec c d) as [->|]; [|discriminate].
    intros H. destruct (IH _ H) as [r ->]. now exists r.
Qed.

Lemma prefix_length (p s : string) :
  String.prefix p s = true -> (String.length p <= String.length s)%nat.
Proof.
  intros H. destruct (prefix_split _ _ H) as [r ->].
  clear H. induction p; simpl; lia.
Qed.

Lemma contains_nil (p : string) : contains p "" = String.prefix p "".
Proof. now destruct p. Qed.

Lemma contains_cons (p : string) (c : ascii) (s : string) :
  contains p (String c s) = (String.prefix p (String c s) || contains p s)%bool.
Proof.
  change (contains p (String c s))
    with (if String.prefix p (String c s) then true else contains p s).
  now destruct (String.prefix p (String c s)).
Qed.

Lemma contains_prefix (p s : string) :
  String.prefix p s = true -> contains p s = true.
Proof.
  destruct s as [|c s]; intros H.
  - now rewrite contains_nil.
  - now rewrite contains_cons, H.
Qed.

Lemma contains_intro (p a b : string) : contains p (a ++ p ++ b) = true.
Proof.
  induction a as [|c a IH]; simpl append.
  - apply contains_prefix, prefix_app.
  - rewrite contains_cons, IH. apply Bool.orb_true_r.
Qed.

Lemma contains_split (p s : string) :
  contains p s = true -> exists a b, s = a ++ p ++ b.
Proof.
  induction s as [|c s IH].
  - rewrite contains_nil. intros E.
    destruct (prefix_split _ _ E) as [r Hr]. now exists "", r.
  - rewrite contains_cons. intros H. apply Bool.orb_true_iff in H.
    destruct H as [E|H].
    + destruct (prefix_split _ _ E) as [r Hr]. now exists "", r.
    + destruct (IH H) as (a & b & ->). now exists (String c a), b.
Qed.
Lemma replace_scan_nil (p r : string) (k : nat) : replace_scan p r k "" = "".
Proof. reflexivity. Qed.

Lemma replace_scan_skip1 (p r : string) (k : nat) (c : ascii) (s : string) :
  replace_scan p r (S k) (String c s) = replace_scan p r k s.
Proof. reflexivity. Qed.

Lemma replace_scan_cons (p r : string) (c : ascii) (s : string) :
  replace_scan p r 0 (String c s) =
  if String.prefix p (String c s)
  then r ++ replace_scan p r (String.length p - 1) s
  else String c (replace_scan p r 0 s).
Proof. reflexivity. Qed.

(** Where the pattern does not occur, the replacement changes nothing. *)
Lemma replace_scan_absent (p r s : string) :
  contains p s = false -> replace_scan p r 0 s = s.
Proof.
  induction s as [|c s IH]; [reflexivity|].
  rewrite contains_cons. intros H. apply Bool.orb_false_iff in H.
  destruct H as [Hp Hc]. rewrite replace_scan_cons, Hp, IH; auto.
Qed.

Lemma replace_scan_skip (p r w b : string) :
  replace_scan p r (String.length w) (w ++ b) = replace_scan p r 0 b.
Proof.
  induction w as [|c w IH]; simpl; [reflexivity|].
  now rewrite replace_scan_skip1.
Qed.

Lemma brace_free_cons (c : ascii) (s : string) :
  brace_free (String c s) = true ->
  c <> "{"%char /\ c <> "}"%char /\ brace_free s = true.
Proof.
  simpl. unfold is_brace. intros H.
  apply Bool.andb_true_iff in H. destruct H as [Hc Hs].
  apply Bool.negb_true_iff, Bool.orb_false_iff in Hc. destruct Hc as [H1 H2].
  apply Ascii.eqb_neq in H1, H2. auto.
Qed.

(** A token cannot begin at a character that is not an opening brace. *)
Lemma prefix_token_other (x : string) (c : ascii) (s : string) :
  c <> "{"%char -> String.prefix (token x) (String c s) = false.
Proof.
  intros Hc. rewrite token_cons, prefix_cons.
  destruct (ascii_dec "{" c); [congruence | reflexivity].
Qed.

(** The rest of a token, [x}], is read before the next opening brace. *)
Lemma prefix_close_before_open (x u z : string) :
  brace_free x = true ->
  String.prefix (x ++ "}") (u ++ String "{" z) = String.prefix (x ++ "}") u.
Proof.
  revert u. induction x as [|a x IH]; intros u Hx.
  - destruct u as [|d u]; simpl append; [reflexivity|].
    rewrite !prefix_cons, !prefix_nil. reflexivity.
  - apply brace_free_cons in Hx. destruct Hx as (Ha1 & Ha2 & Hx).
    destruct u as [|d u]; simpl append.
    + rewrite prefix_cons, prefix_of_nil.
      destruct (ascii_dec a "{"); [congruence | reflexivity].
    + rewrite !prefix_cons.
      destruct (ascii_dec a d); [now apply IH | reflexivity].
Qed.

Lemma prefix_token_before_open (x : string) (c : ascii) (u z : string) :
  brace_free x = true ->
  String.prefix (token x) (String c u ++ String "{" z) =
  String.prefix (token x) (String c u).
Proof.
  intros Hx. rewrite token_cons. simpl append. rewrite !prefix_cons.
  destruct (ascii_dec "{" c); [now apply prefix_close_before_open | reflexivity].
Qed.

(** Two tokens that begin at the same place are the same token. *)
Lemma prefix_token_token (x y v : string) :
  brace_free x = true -> brace_free y = true ->
  String.prefix (token x) (token y ++ v) = String.eqb x y.
Proof.
  intros Hx Hy. rewrite !token_cons. simpl append. rewrite prefix_cons.
  destruct (ascii_dec "{" "{"); [|congruence]. clear e.
  revert y Hy. induction x as [|a x IH]; intros y Hy.
  - destruct y as [|d y]; simpl append; rewrite prefix_cons, prefix_nil.
    + reflexivity.
    + apply brace_free_cons in Hy. destruct Hy as (_ & Hd & _).
      destruct (ascii_dec "}" d); [congruence | reflexivity].
  - apply brace_free_cons in Hx. destruct Hx as (_ & Ha & Hx).
    destruct y as [|d y]; simpl append; rewrite prefix_cons.
    + destruct (ascii_dec a "}"); [congruence | reflexivity].
    + apply brace_free_cons in Hy. destruct Hy as (_ & _ & Hy).
      simpl String.eqb.
      destruct (ascii_dec a d) as [->|Hne].
      * rewrite Ascii.eqb_refl. rewrite <- (IH Hx y Hy). reflexivity.
      * apply Ascii.eqb_neq in Hne. now rewrite Hne.
Qed.

(** No token begins inside a name or at its closing brace. *)
Lemma contains_token_after_name (x y v : string) :
  brace_free y = true ->
  contains (token x) (y ++ String "}" v) = contains (token x) v.
Proof.
  intros Hy. induction y as [|c y IH].
  - simpl append. rewrite contains_cons, prefix_token_other; [reflexivity | discriminate].
  - apply brace_free_cons in Hy. destruct Hy as (Hc & _ & Hy).
    simpl append. rewrite contains_cons, prefix_token_other by exact Hc.
    now apply IH.
Qed.

Lemma contains_token_plain (x u : string) :
  brace_free u = true -> contains (token x) u = false.
Proof.
  intros Hu. induction u as [|c u IH]; [reflexivity|].
  apply brace_free_cons in Hu. destruct Hu as (Hc & _ & Hu).
  rewrite contains_cons, prefix_token_other by exact Hc. now apply IH.
Qed.

(** Where a token can be found in a text that holds a token [y]: before
    it, at it, or after it. *)
Lemma contains_token_around (x y u v : string) :
  brace_free x = true -> brace_free y = true ->
  contains (token x) (u ++ token y ++ v) =
  (contains (token x) u || String.eqb x y || contains (token x) v)%bool.
Proof.
  intros Hx Hy. induction u as [|c u IH].
  - change ("" ++ token y ++ v) with (String "{" ((y ++ "}") ++ v)).
    rewrite contains_cons.
    change (String "{" ((y ++ "}") ++ v)) with (token y ++ v).
    rewrite prefix_token_token by assumption.
    rewrite append_assoc.
    change ("}" ++ v) with (String "}" v).
    rewrite contains_token_after_name by assumption.
    now rewrite (contains_token_plain x "").
  - change (String c u ++ token y ++ v)
      with (String c (u ++ token y ++ v)).
    rewrite !contains_cons, IH.
    change (String c (u ++ token y ++ v))
      with (String c u ++ String "{" ((y ++ "}") ++ v)).
    rewrite prefix_token_before_open by assumption.
    now rewrite !Bool.orb_assoc.
Qed.

Lemma length_append (a b : string) :
  String.length (a ++ b) = (String.length a + String.length b)%nat.
Proof. induction a as [|c a IH]; simpl; [reflexivity | now rewrite IH]. Qed.

(** The scan of the text before a token does not see the token. *)
Lemma replace_scan_before_open (old r a z : string) (k : nat) :
  brace_free old = true -> (k <= String.length a)%nat ->
  replace_scan (token old) r k (a ++ String "{" z) =
  replace_scan (token old) r k a ++ replace_scan (token old) r 0 (String "{" z).
Proof.
  intros Hold. revert k. induction a as [|c a IH]; intros k Hk.
  - simpl in Hk. assert (k = 0)%nat by lia. subst k. reflexivity.
  - change (String c a ++ String "{" z) with (String c (a ++ String "{" z)).
    destruct k as [|k].
    + rewrite !replace_scan_cons.
      change (String c (a ++ String "{" z)) with (String c a ++ String "{" z).
      rewrite prefix_token_before_open by exact Hold.
      destruct (String.prefix (token old) (String c a)) eqn:Hp.
      * apply prefix_length in Hp. simpl in Hp.
        rewrite IH by (simpl; lia). now rewrite append_assoc.
      * rewrite IH by lia. reflexivity.
    + rewrite !replace_scan_skip1. apply IH. simpl in Hk. lia.
Qed.

(** The scan of a name and its closing brace copies them. *)
Lemma replace_scan_name (old r x b : string) :
  brace_free x = true ->
  replace_scan (token old) r 0 (x ++ String "}" b) =
  x ++ String "}" (replace_scan (token old) r 0 b).
Proof.
  intros Hx. induction x as [|c x IH]; simpl append.
  - rewrite replace_scan_cons, prefix_token_other; [reflexivity | discriminate].
  - apply brace_free_cons in Hx. destruct Hx as (Hc & _ & Hx).
    rewrite replace_scan_cons, prefix_token_other by exact Hc.
    now rewrite IH.
Qed.

Lemma replace_scan_at_token (old r x b : string) :
  brace_free old = true -> brace_free x = true ->
  replace_scan (token old) r 0 (token x ++ b) =
  (if String.eqb old x then r else token x) ++ replace_scan (token old) r 0 b.
Proof.
  intros Hold Hx.
  change (token x ++ b) with (String "{" ((x ++ "}") ++ b)).
  rewrite replace_scan_cons.
  change (String "{" ((x ++ "}") ++ b)) with (token x ++ b).
  rewrite prefix_token_token by assumption.
  destruct (String.eqb_spec old x) as [->|Hne].
  - replace (String.length (token x) - 1)%nat with (String.length (x ++ "}"))
      by (rewrite token_cons; simpl; lia).
    now rewrite replace_scan_skip.
  - rewrite append_assoc. change ("}" ++ b) with (String "}" b).
    rewrite replace_scan_name by exact Hx.
    rewrite token_cons. simpl append. now rewrite append_assoc.
Qed.

(** The replacement works token by token. *)
Lemma replace_scan_around (old r a x b : string) :
  brace_free old = true -> brace_free x = true ->
  replace_scan (token old) r 0 (a ++ token x ++ b) =
  replace_scan (token old) r 0 a
  ++ (if String.eqb old x then r else token x)
  ++ replace_scan (token old) r 0 b.
Proof.
  intros Hold Hx.
  change (token x ++ b) with (String "{" ((x ++ "}") ++ b)).
  rewrite replace_scan_before_open by (exact Hold || lia).
  change (String "{" ((x ++ "}") ++ b)) with (token x ++ b).
  now rewrite replace_scan_at_token.
Qed.


(** *** The patch of one name *)

Lemma replace_token (old r s : string) :
  replace (token old) r s = replace_scan (token old) r 0 s.
Proof. reflexivity. Qed.

Lemma patch_one_unfold (old out new : string) :
  patch_one old out new =
  if contains (token new) out then out
  else replace_scan (token old) (appended old new) 0 out.
Proof. reflexivity. Qed.

(** A formula that holds the new token is left as it is. *)
Lemma patch_one_present (old new text : string) :
  contains (token new) text = true -> patch_one old text new = text.
Proof. intros H. now rewrite patch_one_unfold, H. Qed.

(** A formula that does not hold the old token is left as it is. *)
Lemma patch_one_absent (old new text : string) :
  contains (token old) text = false -> patch_one old text new = text.
Proof.
  intros H. rewrite patch_one_unfold.
  destruct (contains (token new) text); [reflexivity|].
  now apply replace_scan_absent.
Qed.

(** The patch keeps every token of the formula. *)
Lemma patch_one_keeps (x old new text : string) :
  brace_free x = true -> brace_free old = true ->
  contains (token x) text = true ->
  contains (token x) (patch_one old text new) = true.
Proof.
  intros Hx Hold Hin. rewrite patch_one_unfold.
  destruct (contains (token new) text); [exact Hin|].
  destruct (contains_split _ _ Hin) as (a & b & ->).
  rewrite replace_scan_around by assumption.
  destruct (String.eqb_spec old x) as [->|Hne].
  - unfold appended. rewrite append_assoc. apply contains_intro.
  - apply contains_intro.
Qed.

(** Where the old token stands, the patch puts the new one. *)
Lemma patch_one_adds (old new text : string) :
  brace_free old = true ->
  contains (token old) text = true ->
  contains (token new) (patch_one old text new) = true.
Proof.
  intros Hold Hin. rewrite patch_one_unfold.
  destruct (contains (token new) text) eqn:Hnew; [exact Hnew|].
  destruct (contains_split _ _ Hin) as (a & b & ->).
  rewrite replace_scan_around by assumption.
  rewrite String.eqb_refl. unfold appended.
  rewrite <- !append_assoc.
  rewrite (append_assoc _ (token new)). apply contains_intro.
Qed.

(** The only token the replacement can add is the new one. *)
Lemma replace_adds_only_new (x old new : string) (n : nat) (text : string) :
  brace_free x = true -> brace_free old = true -> brace_free new = true ->
  (String.length text <= n)%nat ->
  contains (token x) (replace_scan (token old) (appended old new) 0 text) = true ->
  contains (token x) text = true \/ x = new.
Proof.
  intros Hx Hold Hnew. revert text.
  induction n as [|n IH]; intros text Hlen.
  - destruct text; [|simpl in Hlen; lia]. now left.
  - destruct (contains (token old) text) eqn:Hin.
    + destruct (contains_split _ _ Hin) as (a & b & ->).
      assert (Ha : (String.length a <= n)%nat /\ (String.length b <= n)%nat).
      { rewrite !length_append, token_cons in Hlen. simpl in Hlen. lia. }
      rewrite replace_scan_around by assumption.
      rewrite String.eqb_refl. unfold appended.
      rewrite !append_assoc.
      rewrite !contains_token_around by assumption.
      rewrite (contains_token_plain x ", ") by reflexivity.
      intros H. repeat (apply Bool.orb_true_iff in H; destruct H as [H|H]).
      * destruct (IH a (proj1 Ha) H) as [H'|H']; [left|now right].
        now rewrite H'.
      * left. rewrite H. now rewrite Bool.orb_true_r.
      * discriminate.
      * right. now apply String.eqb_eq.
      * destruct (IH b (proj2 Ha) H) as [H'|H']; [left|now right].
        rewrite H'. now rewrite Bool.orb_true_r.
    + rewrite replace_scan_absent by exact Hin. now left.
Qed.

Lemma patch_one_adds_only_new (x old new text : string) :
  brace_free x = true -> brace_free old = true -> brace_free new = true ->
  contains (token x) (patch_one old text new) = true ->
  contains (token x) text = true \/ x = new.
Proof.
  intros Hx Hold Hnew. rewrite patch_one_unfold.
  destruct (contains (token new) text); [now left|].
  now apply (replace_adds_only_new x old new (String.length text)).
Qed.


(** *** The patch of a whole replacement map *)

Lemma patched_entries (repl_map : repl_map_t) (text : string) :
  patched repl_map text = fold_left patch_entry (entries repl_map) text.
Proof.
  unfold patched. revert text.
  induction repl_map as [|[old news] rm IH]; intros text; simpl; [reflexivity|].
  rewrite fold_left_app, IH. f_equal.
  revert text. induction news as [|new news IHn]; intros text; simpl;
    [reflexivity | apply IHn].
Qed.

Lemma fold_patch_keeps (es : list (string * string)) (x text : string) :
  braces_free_in es -> brace_free x = true ->
  contains (token x) text = true ->
  contains (token x) (fold_left patch_entry es text) = true.
Proof.
  intros Hes Hx. revert text.
  induction es as [|e es IH]; intros text Hin; simpl; [exact Hin|].
  apply IH.
  - intros e' He'. apply Hes. now right.
  - apply patch_one_keeps; [exact Hx | apply Hes; now left | exact Hin].
Qed.

Lemma fold_patch_adds_only_new (es : list (string * string)) (x text : string) :
  braces_free_in es -> brace_free x = true ->
  contains (token x) (fold_left patch_entry es text) = true ->
  contains (token x) text = true \/ exists e, In e es /\ x = snd e.
Proof.
  intros Hes Hx. revert text.
  induction es as [|e es IH]; intros text Hin; simpl in Hin; [now left|].
  destruct (IH (fun e' He' => Hes e' (or_intror He')) _ Hin) as [H|(e' & He' & E)].
  - destruct (Hes e (or_introl eq_refl)) as [Ho Hn].
    destruct (patch_one_adds_only_new _ _ _ _ Hx Ho Hn H) as [H'|H'].
    + now left.
    + right. exists e. split; [now left | exact H'].
  - right. exists e'. split; [now right | exact E].
Qed.

Lemma fold_patch_fixed (es : list (string * string)) (text : string) :
  (forall e, In e es -> patch_entry text e = text) ->
  fold_left patch_entry es text = text.
Proof.
  induction es as [|e es IH]; intros H; simpl; [reflexivity|].
  rewrite (H e (or_introl eq_refl)). apply IH. intros e' He'. apply H. now right.
Qed.

(** After the patch of the whole map, no entry has anything left to do. *)
Lemma fold_patch_settled (es : list (string * string)) (text : string) :
  braces_free_in es ->
  (forall e e', In e es -> In e' es -> snd e <> fst e') ->
  forall e, In e es ->
    patch_entry (fold_left patch_entry es text) e = fold_left patch_entry es text.
Proof.
  intros Hes Hfresh e He.
  destruct (Hes e He) as [Hold Hnew].
  unfold patch_entry at 1.
  destruct (contains (token (fst e)) (fold_left patch_entry es text)) eqn:Hin;
    [|now apply patch_one_absent].
  apply patch_one_present.
  destruct (fold_patch_adds_only_new es _ text Hes Hold Hin) as [H0|(e' & He' & E)];
    [|exfalso; exact (Hfresh e' e He' He (eq_sym E))].
  destruct (in_split _ _ He) as (pre & post & ->).
  rewrite fold_left_app. simpl.
  assert (Hpre : braces_free_in pre).
  { intros e' He'. apply Hes. apply in_or_app. now left. }
  assert (Hpost : braces_free_in post).
  { intros e' He'. apply Hes. apply in_or_app. right. now right. }
  apply fold_patch_keeps; [exact Hpost | exact Hnew |].
  apply patch_one_adds; [exact Hold|].
  now apply fold_patch_keeps.
Qed.

Lemma names_brace_free_spec (repl_map : repl_map_t) :
  names_brace_free repl_map = true -> braces_free_in (entries repl_map).
Proof.
  unfold names_brace_free. rewrite forallb_forall. intros H e He.
  now apply Bool.andb_true_iff, H.
Qed.

Lemma no_new_is_old_spec (repl_map : repl_map_t) :
  no_new_is_old repl_map = true ->
  forall e e', In e (entries repl_map) -> In e' (entries repl_map) ->
               snd e <> fst e'.
Proof.
  unfold no_new_is_old. rewrite forallb_forall. intros H e e' He He' E.
  specialize (H e He). apply Bool.negb_true_iff in H.
  assert (Hex : existsb (fun e'0 => String.eqb (snd e) (fst e'0)) (entries repl_map) = true).
  { apply existsb_exists. exists e'. split; [exact He' | now apply String.eqb_eq]. }
  congruence.
Qed.

(** *** The old names are tokens *)

Lemma brace_free_snoc (p : string) (c : ascii) :
  brace_free p = true -> is_brace c = false -> brace_free (snoc p c) = true.
Proof.
  intros Hp Hc. unfold snoc. induction p as [|d p IH]; simpl.
  - now rewrite Hc.
  - simpl in Hp. apply Bool.andb_true_iff in Hp. destruct Hp as [Hd Hp].
    rewrite Hd. now apply IH.
Qed.

(** What the token pattern finds holds no brace. *)
Lemma scan_tokens_brace_free (s : string) (pending : option string) :
  (forall p, pending = Some p -> brace_free p = true) ->
  Forall (fun t => brace_free t = true) (scan_tokens pending s).
Proof.
  revert pending. induction s as [|c s IH]; intros pending Hp; simpl.
  - constructor.
  - destruct (Ascii.eqb c "{") eqn:Ho.
    + apply IH. now intros p [= <-].
    + destruct (Ascii.eqb c "}") eqn:Hc.
      * destruct pending as [[|a x]|].
        -- apply IH. discriminate.
        -- constructor; [now apply Hp | apply IH; discriminate].
        -- apply IH. discriminate.
      * apply IH. intros p Hsome.
        destruct pending as [q|]; [|discriminate]. injection Hsome as <-.
        apply brace_free_snoc; [now apply Hp|].
        unfold is_brace. now rewrite Ho, Hc.
Qed.

Lemma active_tokens_brace_free (sh : Effects.sheet) (t : string) :
  mem_string t (active_tokens sh) = true -> brace_free t = true.
Proof.
  unfold mem_string. rewrite existsb_exists. intros (t' & Hin & E).
  apply String.eqb_eq in E. subst t'.
  pose proof (scan_tokens_brace_free
                (String.concat " " (formulas_of sh)) None) as H.
  rewrite Forall_forall in H. apply H; [discriminate | exact Hin].
Qed.

(** The loops of [process_rollup] end normally only when they created
    nothing: the replacement map they return is empty. *)
Lemma clone_missing_empty (P : Effects.platform) (rollup_id : Z)
    (mapping : mapping_t) (refs_result : Effects.listing) (sh : Effects.sheet)
    (repl_map : repl_map_t) :
  Effects.outcome (clone_missing P rollup_id mapping refs_result sh)
    = Effects.Ok repl_map ->
  repl_map = [].
Proof.
  unfold clone_missing. rewrite clone_sources_run. unfold Effects.outcome, snd.
  destruct (missing_dups _ _ _); [now intros [= <-] | discriminate].
Qed.

(** C8, as amended.  For an entry old -> new, a formula that already
    holds the token of the new name is left unchanged.  Applying the whole
    patch twice is applying it once, for every formula, when the names of
    the replacement map hold no brace and no new name of the map is also
    one of its old names. *)
Theorem patched_idempotent :
  (forall old new text,
     contains (token new) text = true -> patch_one old text new = text)
  /\ (forall repl_map text,
        names_brace_free repl_map = true -> no_new_is_old repl_map = true ->
        patched repl_map (patched repl_map text) = patched repl_map text).
Proof.
  split; [exact patch_one_present|].
  intros repl_map text Hbf Hfresh. rewrite !patched_entries.
  apply fold_patch_fixed. intros e He.
  apply fold_patch_settled;
    [now apply names_brace_free_spec | now apply no_new_is_old_spec | exact He].
Qed.

End TextFacts.

Section PatchExamples.
Import PyStr Updater Examples.
Local Open Scope string_scope.

Lemma patched_idempotent_witness :
  patched budget_map (patched budget_map "=SUM({BudgetRef})")
  = patched budget_map "=SUM({BudgetRef})"
  /\ patched budget_map "=SUM({BudgetRef})"
     = "=SUM({BudgetRef}, {BudgetRef-dup-1003}, {BudgetRef-dup-1002})".
Proof.
  split.
  - apply (proj2 patched_idempotent); reflexivity.
  - reflexivity.
Defined.

(** C8, as the claim states it, fails: with a map in which the new name
    of a later entry is the old name of an earlier one, the second pass
    appends a token that the first pass did not. *)
Lemma patched_twice_differs_on_chained_names :
  patched chained_map "=SUM({B})" = "=SUM({B}, {B-dup-1002})"
  /\ patched chained_map (patched chained_map "=SUM({B})")
     = "=SUM({B}, {B-dup-1002}, {B-dup-1002-dup-1003})"
  /\ patched chained_map (patched chained_map "=SUM({B})")
     <> patched chained_map "=SUM({B})".
Proof. repeat split; try reflexivity. vm_compute. discriminate. Qed.

(** The condition on braces is needed as well: a new name that holds a
    closing brace can lose its token to a later replacement. *)
Lemma patched_twice_differs_on_braced_names :
  no_new_is_old braced_map = true
  /\ patched braced_map "{A} {B}}" = "{A} {B}, {C}}"
  /\ patched braced_map (patched braced_map "{A} {B}}")
     = "{A}, {B}} {B}, {C}}".
Proof. repeat split. Qed.

End PatchExamples.

(** ** Properties of the batches *)

Section ChunkFacts.
Import Updater.
Context {A : Type}.

Lemma chunked_upto_step (fuel n : nat) (x : A) (l : list A) :
  (0 < n)%nat ->
  chunked_upto (S fuel) n (x :: l) =
  firstn n (x :: l) :: chunked_upto fuel n (skipn n (x :: l)).
Proof.
  intros Hn. destruct n as [|n]; [lia|]. reflexivity.
Qed.

Lemma chunked_upto_nil (fuel n : nat) : chunked_upto fuel n (@nil A) = [].
Proof. destruct fuel; simpl; [reflexivity|]. now rewrite firstn_nil. Qed.

Lemma chunked_upto_concat (fuel n : nat) (l : list A) :
  (0 < n)%nat -> (List.length l <= fuel)%nat ->
  List.concat (chunked_upto fuel n l) = l.
Proof.
  intros Hn. revert l. induction fuel as [|fuel IH]; intros l Hl.
  - destruct l; [reflexivity | simpl in Hl; lia].
  - destruct l as [|x l]; [now rewrite chunked_upto_nil|].
    rewrite chunked_upto_step by exact Hn.
    simpl List.concat. rewrite IH.
    + apply firstn_skipn.
    + rewrite length_skipn. cbn [List.length] in *; lia.
Qed.

Lemma chunked_upto_sizes (fuel n : nat) (l : list A) :
  (0 < n)%nat -> (List.length l <= fuel)%nat ->
  forall pre c post, chunked_upto fuel n l = pre ++ c :: post ->
    (0 < List.length c <= n)%nat /\ (post <> [] -> List.length c = n).
Proof.
  intros Hn. revert l. induction fuel as [|fuel IH]; intros l Hl pre c post E.
  - destruct pre; discriminate.
  - destruct l as [|x l]; [rewrite chunked_upto_nil in E; destruct pre; discriminate|].
    rewrite chunked_upto_step in E by exact Hn.
    assert (Hrest : (List.length (skipn n (x :: l)) <= fuel)%nat).
    { rewrite length_skipn. cbn [List.length] in *; lia. }
    destruct pre as [|p pre]; simpl in E; injection E as E1 E2.
    + subst c. rewrite length_firstn. split; [cbn [List.length]; lia|].
      intros Hpost.
      destruct (Nat.le_gt_cases n (List.length (x :: l))) as [Hle|Hgt]; [lia|].
      exfalso. apply Hpost. rewrite <- E2.
      rewrite skipn_all2 by lia. apply chunked_upto_nil.
    + exact (IH _ Hrest _ _ _ E2).
Qed.

Lemma chunked_upto_count (fuel n : nat) (l : list A) :
  (0 < n)%nat -> (List.length l <= fuel)%nat ->
  List.length (chunked_upto fuel n l) = ((List.length l + n - 1) / n)%nat.
Proof.
  intros Hn. revert l. induction fuel as [|fuel IH]; intros l Hl.
  - destruct l; [|simpl in Hl; lia]. simpl.
    symmetry. apply Nat.div_small. lia.
  - destruct l as [|x l].
    + rewrite chunked_upto_nil. simpl. symmetry. apply Nat.div_small. lia.
    + rewrite chunked_upto_step by exact Hn. simpl List.length at 1.
      rewrite IH by (rewrite length_skipn; cbn [List.length] in *; lia).
      rewrite length_skipn.
      destruct (Nat.le_gt_cases (List.length (x :: l)) n) as [Hle|Hgt].
      * replace (List.length (x :: l) - n)%nat with 0%nat by lia.
        rewrite (Nat.div_small (0 + n - 1) n) by lia.
        apply Nat.div_unique with (r := (List.length (x :: l) - 1)%nat);
          cbn [List.length] in *; lia.
      * replace (List.length (x :: l) + n - 1)%nat
          with ((List.length (x :: l) - n + n - 1) + 1 * n)%nat by lia.
        rewrite Nat.div_add by lia. lia.
Qed.

(** X1.  The batches of [chunked n], for a positive [n], put end to end
    are the list itself; no batch is empty or longer than [n], every batch
    but the last holds exactly [n] items, and there are
    [ceil (len / n)] of them. *)
Theorem chunked_batches (n : nat) (l : list A) :
  (0 < n)%nat ->
  List.concat (chunked n l) = l
  /\ (forall pre c post, chunked n l = pre ++ c :: post ->
        (0 < List.length c <= n)%nat /\ (post <> [] -> List.length c = n))
  /\ List.length (chunked n l) = ((List.length l + n - 1) / n)%nat.
Proof.
  intros Hn. unfold chunked.
  split; [now apply chunked_upto_concat|].
  split; [now apply chunked_upto_sizes|now apply chunked_upto_count].
Qed.

End ChunkFacts.

Section ChunkExamples.
Import Updater MoreExamples.

Lemma chunked_batches_witness :
  List.concat (chunked 490 thousand_rows) = thousand_rows
  /\ map (@List.length _) (chunked 490 thousand_rows) = [490; 490; 20]%nat.
Proof.
  split.
  - apply (proj1 (chunked_batches 490 thousand_rows ltac:(lia))).
  - vm_compute. reflexivity.
Defined.

End ChunkExamples.

(** ** Properties of the token pattern *)

Section TokenScan.
Import PyStr Updater Tokens.
Local Open Scope string_scope.
Local Arguments String.prefix : simpl never.
Local Arguments contains : simpl never.

Lemma brace_free_app_r (p q : string) :
  brace_free (p ++ q) = true -> brace_free q = true.
Proof.
  induction p as [|c p IH]; simpl; [auto|].
  intros H. apply Bool.andb_true_iff in H. now apply IH.
Qed.

Lemma completes_open x pending s :
  brace_free x = true -> ~ completes x pending (String "{" s).
Proof.
  intros Hx. destruct pending as [p|]; [|easy].
  intros (q & -> & Hq). apply brace_free_app_r in Hx.
  destruct q as [|d q]; simpl append in Hq; rewrite prefix_cons in Hq.
  - destruct (ascii_dec "}" "{"); discriminate.
  - apply brace_free_cons in Hx. destruct Hx as (Hd & _ & _).
    destruct (ascii_dec d "{"); [congruence | discriminate].
Qed.

Lemma completes_close x pending s :
  brace_free x = true ->
  completes x pending (String "}" s) <-> pending = Some x.
Proof.
  intros Hx. destruct pending as [p|]; [|easy]. split.
  - intros (q & -> & Hq). apply brace_free_app_r in Hx.
    destruct q as [|d q]; [now rewrite append_nil_r|].
    simpl append in Hq. rewrite prefix_cons in Hq.
    apply brace_free_cons in Hx. destruct Hx as (_ & Hd & _).
    destruct (ascii_dec d "}"); [congruence | discriminate].
  - intros [= ->]. exists "". rewrite append_nil_r. split; [reflexivity|].
    simpl append. rewrite prefix_cons, prefix_nil.
    destruct (ascii_dec "}" "}"); congruence.
Qed.

Lemma completes_other x pending c s :
  Ascii.eqb c "}" = false ->
  completes x pending (String c s) <->
  completes x (option_map (fun p => snoc p c) pending) s.
Proof.
  intros Hc. apply Ascii.eqb_neq in Hc.
  destruct pending as [p|]; [|easy]. simpl. split.
  - intros (q & -> & Hq). destruct q as [|d q]; simpl append in Hq;
      rewrite prefix_cons in Hq.
    + destruct (ascii_dec "}" c); [congruence | discriminate].
    + destruct (ascii_dec d c) as [->|]; [|discriminate].
      exists q. split; [|exact Hq]. unfold snoc. now rewrite append_assoc.
  - intros (q & -> & Hq). exists (String c q). split.
    + unfold snoc. now rewrite append_assoc.
    + simpl append. rewrite prefix_cons.
      destruct (ascii_dec c c); [exact Hq | congruence].
Qed.

Lemma scan_tokens_spec (x : string) (s : string) (pending : option string) :
  brace_free x = true -> x <> "" ->
  In x (scan_tokens pending s) <->
  completes x pending s \/ contains (token x) s = true.
Proof.
  intros Hx Hne. revert pending. induction s as [|c s IH]; intros pending.
  - simpl. split; [easy|]. intros [H|H]; [|discriminate].
    destruct pending as [p|]; [|easy]. destruct H as (q & _ & Hq).
    destruct q; discriminate.
  - simpl scan_tokens. destruct (Ascii.eqb c "{") eqn:Ho.
    + apply Ascii.eqb_eq in Ho. subst c. rewrite IH.
      rewrite contains_cons, token_cons, prefix_cons.
      destruct (ascii_dec "{" "{"); [|congruence].
      rewrite Bool.orb_true_iff. split.
      * intros [(q & E & Hq)|H]; [|auto]. simpl in E. subst q. auto.
      * intros [H|[H|H]]; [now apply completes_open in H | | auto].
        left. exists x. now split.
    + assert (Hp : String.prefix (token x) (String c s) = false).
      { apply prefix_token_other. now apply Ascii.eqb_neq. }
      rewrite contains_cons, Hp, Bool.orb_false_l.
      destruct (Ascii.eqb c "}") eqn:Hc.
      * apply Ascii.eqb_eq in Hc. subst c.
        rewrite completes_close by exact Hx.
        destruct pending as [[|a p]|]; simpl; rewrite IH; simpl.
        -- split; [intros [[]|H]; now right|].
           intros [[= E]|H]; [now symmetry in E | now right].
        -- split.
           ++ intros [E|[[]|H]]; [left; now rewrite E | now right].
           ++ intros [[= E]|H]; [now left | right; now right].
        -- split; [intros [[]|H]; now right|].
           intros [[=]|H]. now right.
      * rewrite IH. now rewrite completes_other.
Qed.

Lemma scan_tokens_nonempty (s : string) (pending : option string) :
  Forall (fun t => t <> "") (scan_tokens pending s).
Proof.
  revert pending. induction s as [|c s IH]; intros pending; simpl.
  - constructor.
  - destruct (Ascii.eqb c "{"); [apply IH|].
    destruct (Ascii.eqb c "}"); [|apply IH].
    destruct pending as [[|a p]|]; try apply IH.
    constructor; [discriminate | apply IH].
Qed.

(** X2.  What the token pattern finds in a text are exactly the names,
    not empty and without braces, whose bracketed token [{name}] occurs in
    the text. *)
Theorem findall_tokens_spec (x s : string) :
  In x (findall_tokens s) <->
  brace_free x = true /\ x <> "" /\ contains (token x) s = true.
Proof.
  split.
  - intros Hin.
    assert (Hx : brace_free x = true).
    { pose proof (scan_tokens_brace_free s None) as H.
      rewrite Forall_forall in H. apply H; [discriminate | exact Hin]. }
    assert (Hne : x <> "").
    { pose proof (scan_tokens_nonempty s None) as H.
      rewrite Forall_forall in H. now apply H. }
    split; [exact Hx|]. split; [exact Hne|].
    unfold findall_tokens in Hin.
    rewrite scan_tokens_spec in Hin by assumption.
    destruct Hin as [[]|H]. exact H.
  - intros (Hx & Hne & Hin). unfold findall_tokens.
    rewrite scan_tokens_spec by assumption. now right.
Qed.

End TokenScan.

(** ** Further properties of the formula patch *)

Section PatchTokens.
Import PyStr Effects Updater.
Local Open Scope string_scope.

(** X3.  When the names of the replacement map hold no brace, the patch
    never removes a reference token from a formula, and the only tokens it
    adds are those of new names of the map. *)
Theorem patched_tokens (repl_map : repl_map_t) (text x : string) :
  names_brace_free repl_map = true -> brace_free x = true ->
  (contains (token x) text = true ->
   contains (token x) (patched repl_map text) = true)
  /\ (contains (token x) (patched repl_map text) = true ->
      contains (token x) text = true
      \/ exists e, In e (entries repl_map) /\ x = snd e).
Proof.
  intros Hbf Hx. apply names_brace_free_spec in Hbf.
  rewrite patched_entries. split.
  - now apply fold_patch_keeps.
  - now apply fold_patch_adds_only_new.
Qed.

Lemma patched_without_old_token (repl_map : repl_map_t) (text : string) :
  (forall e, In e (entries repl_map) -> contains (token (fst e)) text = false) ->
  patched repl_map text = text.
Proof.
  intros H. rewrite patched_entries. apply fold_patch_fixed.
  intros e He. apply patch_one_absent. now apply H.
Qed.

(** X4.  A formula that holds the token of no old name of the map is left
    as it is, whatever the names are; hence every row that is sent holds a
    formula with the token of an old name. *)
Theorem updates_hold_old_token (repl_map : repl_map_t) (sh : sheet) :
  (forall text,
     (forall e, In e (entries repl_map) -> contains (token (fst e)) text = false) ->
     patched repl_map text = text)
  /\ (forall r', In r' (updates_of repl_map sh) ->
        exists r c f e,
          In r (rows sh) /\ row_id r' = row_id r /\ In c (cells r)
          /\ truthy (formula c) = Some f
          /\ In e (entries repl_map) /\ contains (token (fst e)) f = true).
Proof.
  split; [exact (patched_without_old_token repl_map)|].
  intros r' Hin.
  destruct (updates_of_spec _ _ _ Hin) as (r & Hr & -> & Hex).
  apply Exists_exists in Hex. destruct Hex as (c & Hc & f & Hf & Hchg).
  assert (Hold : exists e, In e (entries repl_map)
                           /\ contains (token (fst e)) f = true).
  { destruct (existsb (fun e => contains (token (fst e)) f) (entries repl_map))
      eqn:Hex.
    - apply existsb_exists in Hex. exact Hex.
    - exfalso. apply Hchg. apply patched_without_old_token.
      intros e He.
      destruct (contains (token (fst e)) f) eqn:Hcf; [|reflexivity].
      assert (existsb (fun e => contains (token (fst e)) f) (entries repl_map) = true)
        by (apply existsb_exists; eauto).
      congruence. }
  destruct Hold as (e & He & Hcf).
  exists r, c, f, e. repeat split; assumption.
Qed.

End PatchTokens.

Section PatchTokenExamples.
Import PyStr Updater Examples.
Local Open Scope string_scope.

Lemma patched_tokens_witness :
  contains (token "Other") (patched budget_map "=SUM({BudgetRef}) + {Other}") = true.
Proof.
  apply (proj1 (patched_tokens budget_map "=SUM({BudgetRef}) + {Other}" "Other"
                  eq_refl eq_refl)).
  reflexivity.
Defined.

End PatchTokenExamples.

(** ** Further properties of the write phase *)

Section WritePhase.
Import PyStr Effects Updater Batches.
Variable P : platform.
Variable rollup_id : Z.

Lemma send_chunks_answered (chunks : list (list row)) :
  (forall chunk, In chunk chunks -> update_rows P rollup_id chunk = Ok tt) ->
  send_chunks P rollup_id chunks = (map (batch_call rollup_id) chunks, Ok tt).
Proof.
  induction chunks as [|chunk rest IH]; intros Hok; simpl; [reflexivity|].
  rewrite (io_eta (bind _ _)), trace_bind, outcome_bind.
  unfold remote. simpl.
  rewrite (Hok chunk (or_introl eq_refl)).
  rewrite IH by (intros c Hc; apply Hok; now right). reflexivity.
Qed.

Lemma send_chunks_raised (pre post : list (list row)) (chunk : list row) (e : exn) :
  (forall c, In c pre -> update_rows P rollup_id c = Ok tt) ->
  update_rows P rollup_id chunk = Raise e ->
  send_chunks P rollup_id (pre ++ chunk :: post) =
  (map (batch_call rollup_id) (pre ++ [chunk]), Raise e).
Proof.
  induction pre as [|c pre IH]; intros Hok He; simpl.
  - rewrite (io_eta (bind _ _)), trace_bind, outcome_bind.
    unfold remote. simpl. now rewrite He.
  - rewrite (io_eta (bind _ _)), trace_bind, outcome_bind.
    unfold remote. simpl. rewrite (Hok c (or_introl eq_refl)).
    rewrite IH by (auto; intros c' Hc'; apply Hok; now right). reflexivity.
Qed.

(** X5.  Outside a dry run, with a replacement map that is not empty and
    a platform that accepts every batch, the write phase sends the changed
    rows in batches of at most 490 rows, one call per batch, each row once
    and in the order of the sheet, and then prints their number. *)
Theorem write_phase_sends_each_row_once (sh : sheet) (repl_map : repl_map_t) :
  repl_map <> [] ->
  (forall chunk, In chunk (chunked 490 (updates_of repl_map sh)) ->
                 update_rows P rollup_id chunk = Ok tt) ->
  let batches := chunked 490 (updates_of repl_map sh) in
  write_phase P rollup_id sh false repl_map =
    (map (batch_call rollup_id) batches
       ++ [Print (Updated rollup_id (List.length (updates_of repl_map sh)))],
     Ok tt)
  /\ List.concat batches = updates_of repl_map sh
  /\ Forall (fun b => (0 < List.length b <= 490)%nat) batches
  /\ List.length batches
     = ((List.length (updates_of repl_map sh) + 489) / 490)%nat.
Proof.
  intros Hne Hok batches.
  assert (Hcat := chunked_upto_concat _ 490 (updates_of repl_map sh)
                    ltac:(lia) (Nat.le_refl _)).
  assert (Hsize := chunked_upto_sizes _ 490 (updates_of repl_map sh)
                     ltac:(lia) (Nat.le_refl _)).
  assert (Hcount := chunked_upto_count _ 490 (updates_of repl_map sh)
                      ltac:(lia) (Nat.le_refl _)).
  split; [|split; [exact Hcat | split]].
  - unfold write_phase. destruct repl_map as [|entry rm]; [congruence|].
    rewrite (io_eta (bind _ _)), trace_bind, outcome_bind.
    rewrite send_chunks_answered by exact Hok. reflexivity.
  - apply Forall_forall. intros b Hb.
    destruct (in_split _ _ Hb) as (pre & post & E).
    exact (proj1 (Hsize _ _ _ E)).
  - unfold batches, chunked. rewrite Hcount. f_equal. lia.
Qed.

(** X6.  When the platform raises on a batch, the write phase ends with
    that exception right after the failing call: the batches after it are
    not sent and the closing line is not printed. *)
Theorem write_phase_stops_at_failed_batch (sh : sheet) (repl_map : repl_map_t)
    (pre post : list (list row)) (chunk : list row) (e : exn) :
  repl_map <> [] ->
  chunked 490 (updates_of repl_map sh) = pre ++ chunk :: post ->
  (forall c, In c pre -> update_rows P rollup_id c = Ok tt) ->
  update_rows P rollup_id chunk = Raise e ->
  write_phase P rollup_id sh false repl_map =
  (map (batch_call rollup_id) (pre ++ [chunk]), Raise e).
Proof.
  intros Hne Hsplit Hok He.
  unfold write_phase. destruct repl_map as [|entry rm]; [congruence|].
  rewrite (io_eta (bind _ _)), trace_bind, outcome_bind.
  rewrite Hsplit, (send_chunks_raised _ _ _ _ Hok He).
  unfold trace, outcome. simpl. now rewrite app_nil_r.
Qed.

End WritePhase.

Section WritePhaseExamples.
Import PyStr Effects Updater Batches Examples MoreExamples.

Lemma write_phase_sends_each_row_once_witness :
  write_phase rollup_platform 500 rollup_sheet false scenario_map =
  ([Call (UpdateRows 500 [patched_row]); Print (Updated 500 1)], Ok tt).
Proof.
  apply (proj1 (write_phase_sends_each_row_once rollup_platform 500
                  rollup_sheet scenario_map ltac:(discriminate)
                  (fun chunk _ => eq_refl))).
Defined.

Lemma write_phase_stops_at_failed_batch_witness :
  write_phase write_fails 500 rollup_sheet false scenario_map =
  ([Call (UpdateRows 500 [patched_row])], Raise (ApiError "rows")).
Proof.
  apply (write_phase_stops_at_failed_batch write_fails 500 rollup_sheet
           scenario_map [] [] [patched_row] (ApiError "rows")).
  - discriminate.
  - reflexivity.
  - intros c [].
  - reflexivity.
Defined.

End WritePhaseExamples.

(** ** The updater on a mapping of numbers *)

Section IntIds.
Import PyStr Effects Updater Ids.
Variable P : platform.
Variable rollup_id : Z.

Lemma clone_refs_int (z : Z) (ref_list : list reference) (repl_map : repl_map_t) :
  clone_refs P rollup_id (PInt z) ref_list repl_map =
  match ref_list with
  | [] => ([], Ok repl_map)
  | _ => ([], Raise TypeError)
  end.
Proof. destruct ref_list; reflexivity. Qed.

Lemma clone_dups_int refs ref_list dup_ids repl_map :
  forallb is_int dup_ids = true ->
  clone_dups P rollup_id refs ref_list dup_ids repl_map = ([], Ok repl_map)
  \/ clone_dups P rollup_id refs ref_list dup_ids repl_map = ([], Raise TypeError).
Proof.
  induction dup_ids as [|dup rest IH]; simpl; intros Hint; [now left|].
  apply Bool.andb_true_iff in Hint. destruct Hint as [Hd Hrest].
  destruct dup as [z|s]; [|discriminate].
  destruct (dup_in_sources (PInt z) refs); [now apply IH|].
  rewrite clone_refs_int. destruct ref_list as [|r l].
  - change (bind ([], Ok repl_map) (fun rm => clone_dups P rollup_id refs [] rest rm))
      with (let (t', r) := clone_dups P rollup_id refs [] rest repl_map in
            ([] ++ t', r)).
    destruct (IH Hrest) as [E|E]; rewrite E; auto.
  - now right.
Qed.

Lemma dup_ids_of_int (mapping : mapping_t) (src_id : Z) :
  int_ids mapping = true -> forallb is_int (dup_ids_of mapping src_id) = true.
Proof.
  unfold int_ids, dup_ids_of. intros Hint.
  induction mapping as [|[k l] mapping IH]; simpl; [reflexivity|].
  simpl in Hint. apply Bool.andb_true_iff in Hint. destruct Hint as [Hl Hrest].
  destruct (String.eqb (str_of_int src_id) k); [|now apply IH].
  destruct l as [|v l]; [reflexivity|]. simpl in Hl.
  now apply Bool.andb_true_iff in Hl.
Qed.

Lemma clone_sources_int mapping refs src_to_refs repl_map :
  int_ids mapping = true ->
  clone_sources P rollup_id mapping refs src_to_refs repl_map = ([], Ok repl_map)
  \/ clone_sources P rollup_id mapping refs src_to_refs repl_map
     = ([], Raise TypeError).
Proof.
  intros Hint. induction src_to_refs as [|[src_id ref_list] rest IH]; simpl;
    [now left|].
  destruct (clone_dups_int refs ref_list (dup_ids_of mapping src_id) repl_map
              (dup_ids_of_int mapping src_id Hint)) as [E|E]; rewrite E.
  - change (bind ([], Ok repl_map)
              (fun rm => clone_sources P rollup_id mapping refs rest rm))
      with (let (t', r) := clone_sources P rollup_id mapping refs rest repl_map in
            ([] ++ t', r)).
    destruct IH as [E'|E']; rewrite E'; auto.
  - now right.
Qed.

(** X7.  On a mapping whose sheet ids are all numbers, as discovery
    writes them, [process_rollup] never creates a reference and never
    writes a row, dry run or not: after its two reads it either prints
    "nothing to update" or raises [TypeError]. *)
Theorem process_rollup_int_ids_never_write (mapping : mapping_t) (dry : bool) :
  int_ids mapping = true ->
  let run := process_rollup P rollup_id mapping dry in
  (forall c, In (Call c) (trace run) -> is_write c = false)
  /\ (forall refs_result sh,
        list_cross_sheet_references P rollup_id = Ok refs_result ->
        get_sheet P rollup_id = Ok sh ->
        run = ([Call (ListCrossSheetReferences rollup_id); Call (GetSheet rollup_id);
                Print (NothingToUpdate rollup_id)], Ok tt)
        \/ run = ([Call (ListCrossSheetReferences rollup_id);
                   Call (GetSheet rollup_id)], Raise TypeError)).
Proof.
  intros Hint run.
  assert (Hshape : forall refs_result sh,
    list_cross_sheet_references P rollup_id = Ok refs_result ->
    get_sheet P rollup_id = Ok sh ->
    run = ([Call (ListCrossSheetReferences rollup_id); Call (GetSheet rollup_id);
            Print (NothingToUpdate rollup_id)], Ok tt)
    \/ run = ([Call (ListCrossSheetReferences rollup_id);
               Call (GetSheet rollup_id)], Raise TypeError)).
  { intros refs_result sh Hrefs Hsh.
    rewrite (io_eta run). subst run.
    rewrite process_rollup_trace, process_rollup_outcome, Hrefs, Hsh.
    cbv zeta. unfold clone_missing.
    destruct (clone_sources_int mapping (items_of refs_result)
                (group_by_source (active_tokens sh) (items_of refs_result)) []
                Hint) as [E|E]; rewrite E; [left|right]; reflexivity. }
  split; [|exact Hshape].
  intros c Hin.
  destruct (list_cross_sheet_references P rollup_id) as [refs_result|e] eqn:Hrefs.
  - destruct (get_sheet P rollup_id) as [sh|e] eqn:Hsh.
    + destruct (Hshape refs_result sh eq_refl eq_refl) as [E|E];
        rewrite E in Hin; simpl in Hin;
        repeat (destruct Hin as [Hin|Hin];
                [try discriminate; injection Hin as <-; reflexivity|]);
        contradiction.
    + subst run. rewrite process_rollup_trace, Hrefs, Hsh in Hin.
      simpl in Hin.
      repeat (destruct Hin as [Hin|Hin];
              [try discriminate; injection Hin as <-; reflexivity|]);
      contradiction.
  - subst run. rewrite process_rollup_trace, Hrefs in Hin.
    simpl in Hin.
    repeat (destruct Hin as [Hin|Hin];
            [try discriminate; injection Hin as <-; reflexivity|]);
    contradiction.
Qed.

End IntIds.

Section IntIdsExamples.
Import PyStr Effects Updater Ids Examples.

Lemma process_rollup_int_ids_never_write_witness :
  forallb (fun ev => match ev with Call c => negb (is_write c) | Print _ => true end)
    (trace (process_rollup rollup_platform 500 int_mapping true)) = true.
Proof.
  pose proof (proj1 (process_rollup_int_ids_never_write rollup_platform 500
                       int_mapping true eq_refl)) as H.
  cbv zeta in H. apply forallb_forall. intros [c|m] Hin; [|reflexivity].
  now rewrite (H c Hin).
Defined.

End IntIdsExamples.

(** ** Further properties of monitoring and duplication *)

Section MonitorMore.
Import PyStr Effects Monitor.
Variable cfg : config.
Variable P : platform.

Ltac only_reads :=
  unfold outcome, trace; simpl;
  split; [eauto|];
  split; [intros c Hin;
          repeat (destruct Hin as [Hin|Hin];
                  [first [discriminate | injection Hin as <-; auto]|]);
          contradiction|];
  split; [simpl; lia|];
  split; [intros e' He; first [discriminate | injection He as <-; reflexivity]|];
  intros sh' Hs Hreached;
  first [discriminate | injection Hs as <-; first [reflexivity | lia]].

(** X8.  [needs_rollover] never raises and only reads: it issues the
    fetch of the sheet and at most the listing of its references, and
    prints nothing unless the fetch raised.  When the fetch raises it
    prints the error and answers false; when the cell-error limit is
    reached it answers true without listing the references. *)
Theorem needs_rollover_only_reads (sheet_id : Z) :
  let run := needs_rollover cfg P sheet_id in
  (exists trip, outcome run = Ok trip)
  /\ (forall c, In (Call c) (trace run) ->
        c = GetSheet sheet_id \/ c = ListCrossSheetReferences sheet_id)
  /\ (List.length (trace run) <= 2)%nat
  /\ (forall e, get_sheet P sheet_id = Raise e ->
        run = ([Call (GetSheet sheet_id); Print (CheckError sheet_id e)], Ok false))
  /\ (forall sh, get_sheet P sheet_id = Ok sh ->
        ERR_CELL_LIMIT cfg <= err_cells sh ->
        run = ([Call (GetSheet sheet_id)], Ok true)).
Proof.
  intros run. subst run.
  unfold needs_rollover, remote, try_except, bind, print, ret, lift.
  destruct (get_sheet P sheet_id) as [sh|e]; simpl.
  - destruct (Z.leb_spec (ERR_CELL_LIMIT cfg) (err_cells sh)) as [Hle|Hlt]; simpl.
    + only_reads.
    + destruct (list_cross_sheet_references P sheet_id) as [refs|e]; simpl.
      * destruct (refs_saturated cfg refs) as [[|]|e]; simpl;
          try destruct (ERR_CELLCOUNT_LIMIT cfg <=? cell_capacity sh); simpl;
          only_reads.
      * destruct (ERR_CELLCOUNT_LIMIT cfg <=? cell_capacity sh); simpl;
          only_reads.
  - only_reads.
Qed.

(** X9.  [duplicate_blank] never raises, and besides the copy of the
    source it touches only the new sheet: the tag, the fetch and the
    deletion all go to the id that the copy answered, the tag holds the
    decimal text of the source id, and the rows deleted are the rows that
    the fetch of the copy listed. *)
Theorem duplicate_blank_touches_only_copy (src_id : Z) :
  let run := duplicate_blank cfg P src_id in
  (exists r, outcome run = Ok r)
  /\ (forall c, In (Call c) (trace run) ->
        c = CopySheet src_id (WS_ID cfg) (duplicate_name cfg src_id)
        \/ exists new_id,
             copy_sheet P src_id (WS_ID cfg) (duplicate_name cfg src_id) = Ok new_id
             /\ outcome run = Ok (Some new_id)
             /\ (c = UpdateSheetSummaryFields new_id (str_of_int src_id)
                 \/ c = GetSheet new_id
                 \/ exists sh, get_sheet P new_id = Ok sh /\ rows sh <> []
                               /\ c = DeleteRows new_id (map row_id (rows sh)))).
Proof.
  intros run. subst run.
  destruct (copy_sheet P src_id (WS_ID cfg) (duplicate_name cfg src_id))
    as [new_id|e] eqn:Hcopy.
  - rewrite (duplicate_blank_copied cfg P _ _ Hcopy). unfold outcome, trace, fst, snd.
    split; [eauto|]. intros c [E|Hin]; [injection E as <-; now left|].
    right. exists new_id. split; [reflexivity|]. split; [reflexivity|].
    rewrite !in_app_iff in Hin. destruct Hin as [Hin|[Hin|Hin]].
    + unfold tag_events in Hin. destruct Hin as [E|Hin]; [injection E as <-; auto|].
      destruct (update_sheet_summary_fields P new_id (str_of_int src_id));
        [contradiction | destruct Hin as [E|[]]; discriminate].
    + unfold wipe_events in Hin. destruct Hin as [E|Hin]; [injection E as <-; auto|].
      destruct (get_sheet P new_id) as [sh|e];
        [|destruct Hin as [E|[]]; discriminate].
      destruct (rows sh) as [|r rs] eqn:Hr; [contradiction|].
      destruct Hin as [E|Hin].
      * injection E as <-. right. right. exists sh.
        split; [reflexivity|]. split; [congruence|]. now rewrite Hr.
      * destruct (delete_rows P new_id (map row_id (r :: rs)));
          [contradiction | destruct Hin as [E|[]]; discriminate].
    + destruct Hin as [E|[]]. discriminate.
  - rewrite (duplicate_blank_copy_failed cfg P _ _ Hcopy).
    unfold outcome, trace, fst, snd.
    split; [eauto|]. intros c [E|[E|[]]]; [injection E as <-; now left | discriminate].
Qed.

(** X10.  [monitor_group] raises exactly on an empty group, with
    [ValueError] and before any call; on every other group it returns,
    whatever the platform answers. *)
Theorem monitor_group_raises_only_when_empty (template_id : string) (sheets : list Z) :
  match sheets with
  | [] => monitor_group cfg P template_id sheets = ([], Raise ValueError)
  | _ => outcome (monitor_group cfg P template_id sheets) = Ok tt
  end.
Proof.
  destruct sheets as [|x l]; [reflexivity|].
  destruct (needs_rollover_first_call cfg P (fold_left Z.max l x)) as (t & trip & Hcheck).
  unfold monitor_group, lift, bind. simpl py_max. cbv iota beta.
  rewrite Hcheck. destruct trip; [|reflexivity].
  destruct (int_of_str template_id) as [n|]; unfold ret; simpl py_min; cbv iota beta.
  - destruct (duplicate_blank_first_call cfg P n) as (t' & r & ->). reflexivity.
  - destruct (duplicate_blank_first_call cfg P (fold_left Z.min l x))
      as (t' & r & ->). reflexivity.
Qed.

End MonitorMore.

(** ** Further properties of discovery *)

Section GroupFacts.
Import PyStr Discovery Groups.

Lemma setdefault_append_get {A : Type} (k k' : string) (x : A)
    (d : dict string (list A)) :
  dict_get String.eqb k (dict_setdefault_append String.eqb k' x d) =
  if String.eqb k k'
  then Some (match dict_get String.eqb k' d with
             | Some l => l ++ [x]
             | None => [x]
             end)
  else dict_get String.eqb k d.
Proof.
  induction d as [|[k0 l] d IH]; simpl.
  - reflexivity.
  - destruct (String.eqb_spec k' k0) as [->|Hne]; simpl.
    + destruct (String.eqb_spec k k0); reflexivity.
    + rewrite IH. destruct (String.eqb_spec k k0) as [->|Hne'].
      * destruct (String.eqb_spec k0 k') as [E|_]; [congruence | reflexivity].
      * reflexivity.
Qed.

Lemma setdefault_append_NoDup {A : Type} (k : string) (x : A)
    (d : dict string (list A)) :
  NoDup (dict_keys d) -> NoDup (dict_keys (dict_setdefault_append String.eqb k x d)).
Proof.
  unfold dict_keys. induction d as [|[k0 l] d IH]; simpl; intros Hnd.
  - constructor; [intros [] | constructor].
  - inversion Hnd as [|? ? Hnotin Hnd']; subst.
    destruct (String.eqb_spec k k0) as [->|Hne]; simpl.
    + constructor; assumption.
    + constructor; [|auto]. intros Hin. apply Hnotin.
      clear - Hin Hne. induction d as [|[k1 l1] d IH]; simpl in *.
      * destruct Hin as [E|[]]. congruence.
      * destruct (String.eqb k k1); simpl in Hin; destruct Hin as [E|Hin]; auto.
Qed.

Lemma index_loop_mapping w since_cache sheets mapping last_seen :
  fst (index_loop w since_cache sheets (mapping, last_seen)) =
  fold_left (scan w since_cache) sheets mapping.
Proof.
  revert mapping last_seen.
  induction sheets as [|s rest IH]; intros mapping last_seen; simpl.
  - reflexivity.
  - change (match dict_get String.eqb (str_of_int (sheet_id s)) since_cache with
            | Some m => String.eqb m (modified_at s)
            | None => false
            end) with (unchanged since_cache s).
    replace (scan w since_cache mapping s)
      with (if unchanged since_cache s then mapping
            else dict_setdefault_append String.eqb (group_key w s) (sheet_id s) mapping)
      by reflexivity.
    destruct (unchanged since_cache s); apply IH.
Qed.

Lemma fold_scan_NoDup w since_cache sheets mapping :
  NoDup (dict_keys mapping) ->
  NoDup (dict_keys (fold_left (scan w since_cache) sheets mapping)).
Proof.
  revert mapping. induction sheets as [|s rest IH]; intros mapping Hnd; simpl.
  - exact Hnd.
  - apply IH. unfold scan. destruct (unchanged since_cache s); [exact Hnd|].
    now apply setdefault_append_NoDup.
Qed.

Lemma fold_scan_get w since_cache sheets mapping (k : string) :
  dict_get String.eqb k (fold_left (scan w since_cache) sheets mapping) =
  let ids := map sheet_id
               (filter (fun s => (negb (unchanged since_cache s)
                                  && String.eqb (group_key w s) k)%bool) sheets) in
  match dict_get String.eqb k mapping with
  | Some l => Some (l ++ ids)
  | None => match ids with [] => None | _ => Some ids end
  end.
Proof.
  revert mapping. induction sheets as [|s rest IH]; intros mapping; simpl.
  - destruct (dict_get String.eqb k mapping); [now rewrite app_nil_r | reflexivity].
  - rewrite IH.
    replace (scan w since_cache mapping s)
      with (if unchanged since_cache s then mapping
            else dict_setdefault_append String.eqb (group_key w s) (sheet_id s) mapping)
      by reflexivity.
    destruct (unchanged since_cache s); simpl; [reflexivity|].
    rewrite setdefault_append_get.
    destruct (String.eqb_spec k (group_key w s)) as [->|Hne].
    + rewrite String.eqb_refl. simpl.
      destruct (dict_get String.eqb (group_key w s) mapping);
        [now rewrite <- app_assoc | reflexivity].
    + destruct (String.eqb_spec (group_key w s) k); [congruence | reflexivity].
Qed.

(** X11.  The mapping that [build_index] returns has no repeated key.
    Under each key it holds, in the order of discovery, the ids of the
    sheets scanned in the run (those whose [modifiedAt] the cache does not
    hold) that resolve to that key, and it has no key without such a sheet;
    so every scanned sheet is listed under its own key. *)
Theorem build_index_groups (w : workspace) (since_cache : cache_t) :
  let mapping := fst (build_index w since_cache) in
  NoDup (dict_keys mapping)
  /\ (forall k, dict_get String.eqb k mapping =
                match group_ids w since_cache k with
                | [] => None
                | ids => Some ids
                end)
  /\ (forall s, In s (get_all_sheets_recursive w) ->
                unchanged since_cache s = false ->
                exists ids, dict_get String.eqb (group_key w s) mapping = Some ids
                            /\ In (sheet_id s) ids).
Proof.
  intros mapping. subst mapping. unfold build_index.
  rewrite index_loop_mapping.
  assert (Hget : forall k,
    dict_get String.eqb k
      (fold_left (scan w since_cache) (get_all_sheets_recursive w) []) =
    match group_ids w since_cache k with [] => None | ids => Some ids end).
  { intros k. rewrite fold_scan_get. cbv zeta. simpl dict_get.
    unfold group_ids. now destruct (map sheet_id _). }
  split; [apply fold_scan_NoDup; constructor|]. split; [exact Hget|].
  intros s Hin Hs. rewrite Hget.
  assert (Hid : In (sheet_id s) (group_ids w since_cache (group_key w s))).
  { unfold group_ids. apply in_map. apply filter_In. split; [exact Hin|].
    now rewrite Hs, String.eqb_refl. }
  destruct (group_ids w since_cache (group_key w s)) as [|i ids];
    [contradiction|]. eauto.
Qed.

(** X12.  From a cache file that is absent, empty or not JSON,
    [load_cache] gives the empty object and the run is the run from the
    empty cache, in which every discovered sheet is scanned: each is listed
    under its group key.  From a file that holds JSON that is not an object,
    [load_cache] gives that value as it is, and the run raises
    [AttributeError] as soon as the workspace has a sheet. *)
Theorem first_run_lists_every_sheet (w : workspace) (f : cache_file) :
  (path_exists f = false \/ st_size f = 0%nat \/ parsed f = None ->
   load_cache f = JObject []
   /\ discover w f = Effects.Ok (build_index w [])
   /\ forall s, In s (get_all_sheets_recursive w) ->
        exists ids,
          dict_get String.eqb (group_key w s) (fst (build_index w [])) = Some ids
          /\ In (sheet_id s) ids)
  /\ (path_exists f = true -> (0 < st_size f)%nat -> parsed f = Some JNotObject ->
      get_all_sheets_recursive w <> [] ->
      load_cache f = JNotObject /\ discover w f = Effects.Raise Effects.AttributeError).
Proof.
  split.
  - intros Hf.
    assert (E : load_cache f = JObject []).
    { unfold load_cache. destruct Hf as [H|[H|H]].
      - now rewrite H.
      - rewrite H. now rewrite Bool.andb_false_r.
      - rewrite H. now destruct (path_exists f && Nat.ltb 0 (st_size f))%bool. }
    split; [exact E|]. split; [unfold discover; now rewrite E|].
    intros s Hin.
    unfold build_index. rewrite index_loop_mapping, fold_scan_get.
    cbv zeta. simpl dict_get.
    assert (Hid : In (sheet_id s)
      (map sheet_id
         (filter (fun s0 => (negb (unchanged [] s0)
                             && String.eqb (group_key w s0) (group_key w s))%bool)
            (get_all_sheets_recursive w)))).
    { apply in_map. apply filter_In. split; [exact Hin|].
      now rewrite String.eqb_refl. }
    destruct (map sheet_id _) as [|i ids]; [contradiction | eauto].
  - intros He Hs Hp Hne.
    assert (E : load_cache f = JNotObject).
    { unfold load_cache. rewrite He, Hp.
      apply Nat.ltb_lt in Hs. now rewrite Hs. }
    split; [exact E|]. unfold discover. rewrite E.
    now destruct (get_all_sheets_recursive w).
Qed.

End GroupFacts.

Section GroupExamples.
Import PyStr Discovery Groups Examples.

Lemma first_run_lists_every_sheet_witness :
  (discover two_sheet_workspace MoreExamples.truncated_cache
   = Effects.Ok ([("1001", [1001]); ("Budget", [1002])],
         [("1001", "2024-01-01T00:00:00"); ("1002", "2024-02-02T00:00:00")])
   /\ exists ids,
        dict_get String.eqb "Budget" (fst (build_index two_sheet_workspace []))
        = Some ids
        /\ In 1002 ids)
  /\ discover two_sheet_workspace MoreExamples.list_cache = Effects.Raise Effects.AttributeError.
Proof.
  pose proof (first_run_lists_every_sheet two_sheet_workspace
                MoreExamples.truncated_cache) as [Hfirst _].
  pose proof (first_run_lists_every_sheet two_sheet_workspace
                MoreExamples.list_cache) as [_ Hlist].
  destruct (Hfirst (or_intror (or_intror eq_refl))) as (_ & Hrun & Hall).
  split; [split|].
  - rewrite Hrun. reflexivity.
  - exact (Hall budget_copy ltac:(simpl; auto)).
  - apply Hlist; [reflexivity | simpl; lia | reflexivity | discriminate].
Defined.

End GroupExamples.

(** ** Properties of name normalisation *)

Section NormaliseFacts.
Import PyStr Discovery Names.
Local Open Scope string_scope.
Local Arguments String.prefix : simpl never.
Local Arguments contains : simpl never.

Lemma lower_app (a b : string) : lower (a ++ b) = lower a ++ lower b.
Proof. induction a as [|c a IH]; simpl; [reflexivity | now rewrite IH]. Qed.

Lemma prefix_app_l (p a b : string) :
  String.prefix p a = true -> String.prefix p (a ++ b) = true.
Proof.
  intros H. destruct (prefix_split _ _ H) as [r ->].
  rewrite append_assoc. apply prefix_app.
Qed.

Lemma contains_inside (p a x b : string) :
  contains p x = true -> contains p (a ++ x ++ b) = true.
Proof.
  intros H. destruct (contains_split _ _ H) as (u & v & ->).
  rewrite !append_assoc. rewrite <- (append_assoc a u).
  apply contains_intro.
Qed.

Lemma line_tail_single_line (s : string) :
  single_line s = true -> line_tail s = Some "".
Proof.
  induction s as [|c s IH]; simpl; [reflexivity|].
  intros H. apply Bool.andb_true_iff in H. destruct H as [Hc Hs].
  apply Bool.negb_true_iff in Hc. rewrite Hc. now apply IH.
Qed.

Lemma single_line_drop (n : nat) (s : string) :
  single_line s = true -> single_line (drop n s) = true.
Proof.
  revert s. induction n as [|n IH]; intros s Hs; [now destruct s|].
  destruct s as [|c s]; [reflexivity|]. simpl in *.
  apply Bool.andb_true_iff in Hs. now apply IH.
Qed.

Lemma sub_copy_cons (c : ascii) (s : string) :
  sub_copy (String c s) =
  if String.prefix copy_marker (lower (String c s))
  then match line_tail (drop 7 (String c s)) with
       | Some rest => rest
       | None => String c (sub_copy s)
       end
  else String c (sub_copy s).
Proof. reflexivity. Qed.

(** Where the marker does not occur, nothing is cut. *)
Lemma sub_copy_absent (s : string) :
  contains copy_marker (lower s) = false -> sub_copy s = s.
Proof.
  induction s as [|c s IH]; [reflexivity|].
  simpl lower. rewrite contains_cons. intros H.
  apply Bool.orb_false_iff in H. destruct H as [Hp Hc].
  rewrite sub_copy_cons. simpl lower. rewrite Hp, IH; auto.
Qed.

Lemma sub_copy_single_line (s : string) :
  single_line s = true ->
  exists rest,
    s = sub_copy s ++ rest
    /\ contains copy_marker (lower (sub_copy s)) = false
    /\ (rest = "" \/ String.prefix copy_marker (lower rest) = true).
Proof.
  induction s as [|c s IH]; intros Hs.
  - exists "". repeat split. now left.
  - rewrite sub_copy_cons.
    destruct (String.prefix copy_marker (lower (String c s))) eqn:Hp.
    + rewrite line_tail_single_line by (now apply single_line_drop).
      exists (String c s). repeat split. now right.
    + simpl in Hs. apply Bool.andb_true_iff in Hs. destruct Hs as [_ Hs].
      destruct (IH Hs) as (rest & Hsplit & Hfree & Hrest).
      exists rest. split; [simpl; now rewrite <- Hsplit|]. split; [|exact Hrest].
      simpl lower. rewrite contains_cons, Hfree, Bool.orb_false_r.
      destruct (String.prefix copy_marker
                  (String (lower_char c) (lower (sub_copy s)))) eqn:Hq;
        [|reflexivity].
      apply (prefix_app_l _ _ (lower rest)) in Hq.
      change (String (lower_char c) (lower (sub_copy s)) ++ lower rest)
        with (String (lower_char c) (lower (sub_copy s) ++ lower rest)) in Hq.
      rewrite <- lower_app, <- Hsplit in Hq. simpl lower in Hp. congruence.
Qed.

Lemma lstrip_suffix (s : string) : exists a, s = a ++ lstrip s.
Proof.
  induction s as [|c s IH]; simpl; [now exists ""|].
  destruct (is_space c); [|now exists ""].
  destruct IH as [a Ha]. exists (String c a). simpl. now rewrite <- Ha.
Qed.

Lemma rstrip_prefix (s : string) : exists b, s = rstrip s ++ b.
Proof.
  induction s as [|c s IH]; simpl; [now exists ""|].
  destruct IH as [b Hb]. destruct (rstrip s) as [|d r] eqn:Hr.
  - destruct (is_space c); [exists (String c s) | exists s]; reflexivity.
  - exists b. simpl. now rewrite Hb at 1.
Qed.

Lemma strip_inside (s : string) : exists a b, s = a ++ strip s ++ b.
Proof.
  unfold strip. destruct (lstrip_suffix s) as [a Ha].
  destruct (rstrip_prefix (lstrip s)) as [b Hb].
  exists a, b. now rewrite <- Hb.
Qed.

Lemma lstrip_head (s : string) : head_not_space (lstrip s) = true.
Proof.
  induction s as [|c s IH]; simpl; [reflexivity|].
  destruct (is_space c) eqn:Hc; [exact IH | simpl; now rewrite Hc].
Qed.

Lemma lstrip_fixed (s : string) : head_not_space s = true -> lstrip s = s.
Proof.
  destruct s as [|c s]; simpl; [reflexivity|].
  intros H. apply Bool.negb_true_iff in H. now rewrite H.
Qed.

Lemma rstrip_head (s : string) :
  head_not_space s = true -> head_not_space (rstrip s) = true.
Proof.
  destruct s as [|c s]; simpl; [reflexivity|].
  intros H. destruct (rstrip s); simpl; [|exact H].
  apply Bool.negb_true_iff in H. rewrite H. simpl. now rewrite H.
Qed.

Lemma rstrip_idempotent (s : string) : rstrip (rstrip s) = rstrip s.
Proof.
  induction s as [|c s IH]; simpl; [reflexivity|].
  destruct (rstrip s) as [|d r] eqn:Hr.
  - destruct (is_space c) eqn:Hc; simpl; [reflexivity | now rewrite Hc].
  - change (rstrip (String c (String d r)))
      with (match rstrip (String d r) with
            | EmptyString => if is_space c then EmptyString else String c EmptyString
            | r' => String c r'
            end).
    now rewrite IH.
Qed.

Lemma strip_idempotent (s : string) : strip (strip s) = strip s.
Proof.
  unfold strip.
  rewrite (lstrip_fixed (rstrip (lstrip s))) by (apply rstrip_head, lstrip_head).
  apply rstrip_idempotent.
Qed.

Lemma marker_free_inside (a x b : string) :
  contains copy_marker (lower (a ++ x ++ b)) = false ->
  contains copy_marker (lower x) = false.
Proof.
  intros H. destruct (contains copy_marker (lower x)) eqn:Hx; [|reflexivity].
  rewrite !lower_app in H.
  now rewrite (contains_inside _ (lower a) _ (lower b) Hx) in H.
Qed.

(** X14.  A name in which the marker " - copy" does not occur, in any
    case of letters, is only stripped.  In a name of one line,
    [re.sub] cuts at the first occurrence of the marker: what is kept holds
    no marker, and what is dropped is empty or begins with the marker. *)
Theorem normalise_cuts_at_marker (name : string) :
  (contains copy_marker (lower name) = false -> normalise name = strip name)
  /\ (single_line name = true ->
      exists rest,
        name = sub_copy name ++ rest
        /\ contains copy_marker (lower (sub_copy name)) = false
        /\ (rest = "" \/ String.prefix copy_marker (lower rest) = true)).
Proof.
  split.
  - intros H. unfold normalise. now rewrite sub_copy_absent.
  - apply sub_copy_single_line.
Qed.

(** X15.  On names of one line [normalise] is idempotent: the
    normalised name is its own normal form, so a sheet named by a group key
    resolves to that key. *)
Theorem normalise_idempotent (name : string) :
  single_line name = true -> normalise (normalise name) = normalise name.
Proof.
  intros Hs. unfold normalise at 1.
  destruct (sub_copy_single_line name Hs) as (rest & _ & Hfree & _).
  assert (Hn : contains copy_marker (lower (normalise name)) = false).
  { unfold normalise. destruct (strip_inside (sub_copy name)) as (a & b & E).
    rewrite E in Hfree. exact (marker_free_inside _ _ _ Hfree). }
  rewrite (sub_copy_absent _ Hn). unfold normalise. apply strip_idempotent.
Qed.

End NormaliseFacts.


Section NormaliseExamples.
Import PyStr Discovery Names.
Local Open Scope string_scope.

Lemma normalise_cuts_at_marker_witness :
  exists rest,
    "Budget - Copy (3)" = sub_copy "Budget - Copy (3)" ++ rest
    /\ contains copy_marker (lower (sub_copy "Budget - Copy (3)")) = false
    /\ (rest = "" \/ String.prefix copy_marker (lower rest) = true).
Proof.
  exact (proj2 (normalise_cuts_at_marker "Budget - Copy (3)") eq_refl).
Defined.

Lemma normalise_idempotent_witness :
  normalise (normalise "  Budget - COPY (3) ") = normalise "  Budget - COPY (3) "
  /\ normalise "  Budget - COPY (3) " = "Budget".
Proof.
  split; [exact (normalise_idempotent "  Budget - COPY (3) " eq_refl) | reflexivity].
Defined.

(** On a name of several lines the second pass can cut where the first
    could not: the marker is followed by a newline that is not the last
    character until the name is stripped. *)
Lemma normalise_twice_on_two_lines :
  normalise (String "a" (" - copy x" ++ String "010" (String "010" "")))
    = "a - copy x"
  /\ normalise "a - copy x" = "a".
Proof. split; reflexivity. Qed.

End NormaliseExamples.

(** ** Properties of the detection of rollup sheets *)

Section DetectionFacts.
Import PyStr Effects Discovery Updater Detection.
Local Open Scope string_scope.
Local Arguments String.prefix : simpl never.
Local Arguments contains : simpl never.
Variable P : platform.

Lemma detect_ids (all_sheets : list sheet_info) :
  snd (detect_rollup_sheets P all_sheets) =
  map sheet_id (filter (detected P) all_sheets).
Proof.
  induction all_sheets as [|s rest IH]; simpl; [reflexivity|].
  destruct (detect_rollup_sheets P rest) as [t ids]. simpl in IH.
  unfold detected at 1.
  destruct (get_sheet P (sheet_id s)) as [sh|e]; [|exact IH].
  destruct (has_cross_sheet_formulas sh); simpl; [now rewrite IH | exact IH].
Qed.

Lemma detect_fetches (all_sheets : list sheet_info) :
  flat_map (fun ev => match ev with Fetched i => [i] | Announced _ _ => [] end)
    (fst (detect_rollup_sheets P all_sheets))
  = map sheet_id all_sheets.
Proof.
  induction all_sheets as [|s rest IH]; simpl; [reflexivity|].
  destruct (detect_rollup_sheets P rest) as [t ids]. simpl in IH.
  destruct (get_sheet P (sheet_id s)) as [sh|e]; simpl; [|now rewrite IH].
  destruct (has_cross_sheet_formulas sh); simpl; now rewrite IH.
Qed.

Lemma token_has_braces (x f : string) :
  contains (token x) f = true ->
  contains "{" f = true /\ contains "}" f = true.
Proof.
  intros H. destruct (contains_split _ _ H) as (a & b & ->). split.
  - rewrite token_cons. change (String "{" (x ++ "}") ++ b)
      with ("{" ++ (x ++ "}") ++ b). apply contains_intro.
  - rewrite token_cons.
    change (a ++ String "{" (x ++ "}") ++ b)
      with (a ++ String "{" ((x ++ "}") ++ b)).
    rewrite append_assoc.
    change (a ++ String "{" (x ++ "}" ++ b))
      with (a ++ (String "{" x) ++ "}" ++ b).
    rewrite <- append_assoc. apply contains_intro.
Qed.

Lemma found_token_occurs (x f : string) :
  In x (findall_tokens f) -> contains (token x) f = true.
Proof.
  intros Hin.
  assert (Hx : brace_free x = true).
  { pose proof (scan_tokens_brace_free f None) as H.
    rewrite Forall_forall in H. apply H; [discriminate | exact Hin]. }
  assert (Hne : x <> "").
  { pose proof (scan_tokens_nonempty f None) as H.
    rewrite Forall_forall in H. now apply H. }
  unfold findall_tokens in Hin. rewrite scan_tokens_spec in Hin by assumption.
  destruct Hin as [[]|H]. exact H.
Qed.

Lemma formulas_of_cell (sh : sheet) (f : string) :
  In f (formulas_of sh) ->
  exists r c, In r (rows sh) /\ In c (cells r) /\ formula c = Some f.
Proof.
  unfold formulas_of. rewrite in_flat_map. intros (c & Hc & Hf).
  apply in_flat_map in Hc. destruct Hc as (r & Hr & Hc).
  exists r, c. split; [exact Hr|]. split; [exact Hc|].
  destruct (formula c) as [[|a g]|]; simpl in Hf; try contradiction.
  destruct Hf as [<-|[]]. reflexivity.
Qed.

(** X16.  The detection never fails: it fetches every sheet once, in
    order, and returns, in order, the ids of the sheets whose fetch
    answered with a formula that holds both braces; a sheet that cannot be
    read is passed over.  It finds every sheet on which the updater would
    find a reference token inside one formula. *)
Theorem detect_rollup_sheets_spec (all_sheets : list sheet_info) :
  snd (detect_rollup_sheets P all_sheets)
    = map sheet_id (filter (detected P) all_sheets)
  /\ flat_map (fun ev => match ev with Fetched i => [i] | Announced _ _ => [] end)
       (fst (detect_rollup_sheets P all_sheets))
     = map sheet_id all_sheets
  /\ (forall s sh f x,
        In s all_sheets -> get_sheet P (sheet_id s) = Ok sh ->
        In f (formulas_of sh) -> In x (findall_tokens f) ->
        In (sheet_id s) (snd (detect_rollup_sheets P all_sheets))).
Proof.
  split; [apply detect_ids|]. split; [apply detect_fetches|].
  intros s sh f x Hs Hsh Hf Hx. rewrite detect_ids.
  apply in_map. apply filter_In. split; [exact Hs|].
  unfold detected. rewrite Hsh. unfold has_cross_sheet_formulas.
  destruct (formulas_of_cell _ _ Hf) as (r & c & Hr & Hc & Hfc).
  apply existsb_exists. exists r. split; [exact Hr|].
  apply existsb_exists. exists c. split; [exact Hc|].
  unfold has_cross_sheet_formula. rewrite Hfc.
  destruct (token_has_braces x f (found_token_occurs _ _ Hx)) as [H1 H2].
  now rewrite H1, H2.
Qed.

End DetectionFacts.

Section DetectionExamples.
Import PyStr Effects Discovery Updater Detection Examples.
Local Open Scope string_scope.

Lemma detect_rollup_sheets_spec_witness :
  In 1001 (snd (detect_rollup_sheets rollup_platform [budget_template; budget_copy])).
Proof.
  apply (proj2 (proj2 (detect_rollup_sheets_spec rollup_platform
                         [budget_template; budget_copy]))
           budget_template rollup_sheet "=SUM({BudgetRef})" "BudgetRef").
  - now left.
  - reflexivity.
  - simpl. now left.
  - simpl. now left.
Defined.

End DetectionExamples.

(** ** Properties of the command line of the updater *)

Section RollupList.
Import PyStr Effects Updater Digits Detection.
Local Open Scope string_scope.

Lemma str_of_int_id_text (z : Z) : id_text (str_of_int z) = true.
Proof.
  assert (H : forall d, id_text (NilEmpty.string_of_uint d) = true).
  { intros d. unfold id_text. apply forallb_forall. intros c Hc.
    pose proof (string_of_uint_digits d) as Hd. unfold digits_only in Hd.
    rewrite forallb_forall in Hd. unfold id_char. now rewrite (Hd c Hc). }
  unfold str_of_int.
  destruct z as [|p|p]; [reflexivity | |]; simpl Z.to_int;
    simpl NilZero.string_of_int; unfold NilZero.string_of_uint;
    pose proof (H (Pos.to_uint p)) as Hp;
    destruct (Pos.to_uint p); try reflexivity; try exact Hp;
    unfold id_text; simpl; exact Hp.
Qed.

Lemma split_plain (sep : ascii) (a : string) :
  forallb (fun c => negb (Ascii.eqb c sep)) (list_ascii_of_string a) = true ->
  split sep a = [a].
Proof.
  induction a as [|c a IH]; simpl; [reflexivity|].
  intros H. apply Bool.andb_true_iff in H. destruct H as [Hc Ha].
  apply Bool.negb_true_iff in Hc. rewrite Hc, (IH Ha). reflexivity.
Qed.

Lemma split_at_sep (sep : ascii) (a b : string) :
  forallb (fun c => negb (Ascii.eqb c sep)) (list_ascii_of_string a) = true ->
  split sep (a ++ String sep b) = a :: split sep b.
Proof.
  induction a as [|c a IH]; simpl.
  - intros _. now rewrite Ascii.eqb_refl.
  - intros H. apply Bool.andb_true_iff in H. destruct H as [Hc Ha].
    apply Bool.negb_true_iff in Hc. rewrite Hc, (IH Ha). reflexivity.
Qed.

Lemma id_text_no_comma (s : string) :
  id_text s = true ->
  forallb (fun c => negb (Ascii.eqb c ",")) (list_ascii_of_string s) = true.
Proof.
  unfold id_text. rewrite !forallb_forall. intros H c Hc.
  specialize (H c Hc). apply Bool.negb_true_iff.
  destruct (Ascii.eqb_spec c ","); [subst c; discriminate | reflexivity].
Qed.

Lemma split_concat_ids (ids : list Z) :
  ids <> [] ->
  split "," (String.concat "," (map str_of_int ids)) = map str_of_int ids.
Proof.
  induction ids as [|z ids IH]; [congruence|]. intros _.
  destruct ids as [|z' ids].
  - simpl. apply split_plain, id_text_no_comma, str_of_int_id_text.
  - change (String.concat "," (map str_of_int (z :: z' :: ids)))
      with (str_of_int z ++ String "," (String.concat "," (map str_of_int (z' :: ids)))).
    rewrite split_at_sep by apply id_text_no_comma, str_of_int_id_text.
    rewrite IH by discriminate. reflexivity.
Qed.

Lemma ints_of_texts (ids : list Z) :
  ints_of int_of_str (map str_of_int ids) = Ok ids.
Proof.
  induction ids as [|z ids IH]; simpl; [reflexivity|].
  now rewrite int_of_str_str_of_int, IH.
Qed.

Lemma concat_ids_head (ids : list Z) :
  ids <> [] ->
  exists c r, String.concat "," (map str_of_int ids) = String c r
              /\ id_char c = true.
Proof.
  destruct ids as [|z ids]; [congruence|]. intros _.
  pose proof (str_of_int_id_text z) as Ht.
  pose proof (str_of_int_not_empty z) as Hne.
  destruct (str_of_int z) as [|c r] eqn:E; [congruence|].
  unfold id_text in Ht. simpl in Ht. apply Bool.andb_true_iff in Ht.
  destruct Ht as [Hc _].
  destruct ids as [|z' ids].
  - exists c, r. simpl. now rewrite E.
  - exists c, (r ++ String "," (String.concat "," (map str_of_int (z' :: ids)))).
    change (String.concat "," (map str_of_int (z :: z' :: ids)))
      with (str_of_int z ++ String "," (String.concat "," (map str_of_int (z' :: ids)))).
    now rewrite E.
Qed.

Lemma main_with_list (fs : files) (a : args) (m : mapping_t)
    (c : ascii) (r : string) :
  json_mapping fs (arg_mapping a) = Some m ->
  arg_rollups a = Some (String c r) ->
  id_char c = true ->
  main fs a =
  bind (lift (ints_of int_of_str (split "," (String c r))))
    (fun rollups =>
       match rollups with
       | [] => bind (print NoRollupSheets) (fun _ => ret None)
       | _ => ret (Some {| g_rollups := rollups; g_mapping := m;
                           g_dry := arg_dry_run a |})
       end).
Proof.
  intros Hm Ha Hc. unfold main. rewrite Hm, Ha.
  assert (Hauto : String.eqb (String c r) "auto" = false).
  { simpl. destruct (Ascii.eqb_spec c "a"); [subst c; discriminate | reflexivity]. }
  assert (Hat : startswith "@" (String c r) = false).
  { unfold startswith. change "@" with (String "@" ""). rewrite prefix_cons.
    destruct (ascii_dec "@" c); [subst c; discriminate | reflexivity]. }
  rewrite Hauto, Hat.
  unfold bind, ret, raise, lift.
  destruct (ints_of int_of_str (split "," (String c r))) as [[|x l]|e];
    reflexivity.
Qed.

(** X17.  A comma-separated list of the decimal texts of ids is read back
    as those ids, in order: with the mapping present, [main] prints nothing,
    calls nothing and hands exactly those rollups, the mapping and the
    dry-run flag to [process_rollup]. *)
Theorem main_reads_id_list (fs : files) (a : args) (m : mapping_t) (ids : list Z) :
  json_mapping fs (arg_mapping a) = Some m ->
  ids <> [] ->
  arg_rollups a = Some (String.concat "," (map str_of_int ids)) ->
  main fs a = ([], Ok (Some {| g_rollups := ids; g_mapping := m;
                               g_dry := arg_dry_run a |})).
Proof.
  intros Hm Hne Ha.
  destruct (concat_ids_head ids Hne) as (c & r & E & Hc).
  rewrite E in Ha. rewrite (main_with_list fs a m c r Hm Ha Hc).
  rewrite <- E, (split_concat_ids ids Hne), ints_of_texts.
  destruct ids; [congruence | reflexivity].
Qed.

(** X18.  Detection and propagation compose: when discovery saves what
    [detect_rollup_sheets] returned and the updater is then run, with the
    mapping present, on the rollups "auto", [main] hands over exactly the
    ids of the sheets that were detected, in the order of discovery, after
    printing their number; when none was detected it prints that no rollup
    sheet was found and returns. *)
Theorem auto_rollups_are_the_detected (P : platform)
    (all_sheets : list Discovery.sheet_info)
    (fs : files) (a : args) (m : mapping_t) (now : string) :
  json_mapping fs (arg_mapping a) = Some m ->
  arg_rollups a = Some "auto" ->
  main (with_config fs
          (save_rollup_config now (snd (detect_rollup_sheets P all_sheets)))) a =
  match filter (detected P) all_sheets with
  | [] => ([Print (UsingAutoDetected 0); Print NoRollupSheets], Ok None)
  | found =>
      ([Print (UsingAutoDetected (List.length found))],
       Ok (Some {| g_rollups := map Discovery.sheet_id found; g_mapping := m;
                   g_dry := arg_dry_run a |}))
  end.
Proof.
  intros Hm Ha. rewrite detect_ids.
  unfold main. simpl json_mapping. rewrite Hm, Ha.
  destruct (filter (detected P) all_sheets) as [|s found]; [reflexivity|].
  unfold with_config, save_rollup_config. simpl auto_rollup_config.
  rewrite String.eqb_refl. cbv iota beta.
  unfold bind, print, ret. simpl. now rewrite length_map.
Qed.

End RollupList.

Section RollupListExamples.
Import PyStr Effects Updater Detection Examples.
Local Open Scope string_scope.

Lemma main_reads_id_list_witness :
  main mapping_only args_list =
  ([], Ok (Some {| g_rollups := [500; 501]; g_mapping := int_mapping;
                   g_dry := true |})).
Proof.
  apply (main_reads_id_list mapping_only args_list int_mapping [500; 501]);
    [reflexivity | discriminate | reflexivity].
Defined.

Lemma auto_rollups_are_the_detected_witness :
  main (with_config mapping_only
          (save_rollup_config "2024-03-01T00:00:00"
             (snd (detect_rollup_sheets rollup_platform [budget_template]))))
    args_auto =
  ([Print (UsingAutoDetected 1)],
   Ok (Some {| g_rollups := [1001]; g_mapping := int_mapping; g_dry := false |})).
Proof.
  exact (auto_rollups_are_the_detected rollup_platform [budget_template]
           mapping_only args_auto int_mapping "2024-03-01T00:00:00"
           eq_refl eq_refl).
Defined.

End RollupListExamples.

(** ** Properties of the traversal of folders *)

Section FolderFacts.
Import PyStr Discovery Folders.

Lemma listed_in (s : sheet_info) (f : folder) :
  listed s f -> In s (get_folder_sheets_recursive f).
Proof.
  induction 1 as [id sheets folders Hin | id sheets folders f Hf _ IH]; simpl;
    apply in_or_app.
  - now left.
  - right. apply in_flat_map. now exists f.
Qed.

Lemma in_listed (f : folder) (s : sheet_info) :
  In s (get_folder_sheets_recursive f) -> listed s f.
Proof.
  revert f s. fix IH 1. intros [id sheets folders|id e] s; simpl.
  - intros H. apply in_app_or in H. destruct H as [H|H].
    + now apply listed_here.
    + assert (Hex : exists f, In f folders /\ listed s f).
      { induction folders as [|f folders IHf]; simpl in H; [contradiction|].
        apply in_app_or in H. destruct H as [H|H].
        - exists f. split; [now left | now apply IH].
        - destruct (IHf H) as (f' & Hf' & Hl). exists f'. split; [now right | exact Hl]. }
      destruct Hex as (f & Hf & Hl). exact (listed_below s id sheets folders f Hf Hl).
  - intros [].
Qed.

(** X19.  A sheet is discovered exactly when it lies in the workspace
    itself or in a folder reached from it through folders that could all be
    read: a folder that cannot be read hides its own sheets and subfolders,
    and nothing else. *)
Theorem discovered_iff_listed (w : workspace) (s : sheet_info) :
  In s (get_all_sheets_recursive w) <->
  In s (ws_sheets w) \/ exists f, In f (ws_folders w) /\ listed s f.
Proof.
  unfold get_all_sheets_recursive. rewrite in_app_iff, in_flat_map. split.
  - intros [H|(f & Hf & H)]; [now left|]. right. exists f.
    split; [exact Hf | now apply in_listed].
  - intros [H|(f & Hf & H)]; [now left|]. right. exists f.
    split; [exact Hf | now apply listed_in].
Qed.

(** X20.  With distinct sheet ids, a run that starts from the change
    cache of the previous run over an unchanged workspace scans no sheet:
    it returns an empty mapping and the same change cache. *)
Theorem rerun_scans_nothing (w : workspace) (since_cache : cache_t) :
  NoDup (map sheet_id (get_all_sheets_recursive w)) ->
  build_index w (snd (build_index w since_cache)) =
  ([], snd (build_index w since_cache)).
Proof.
  intros Hnd.
  rewrite (surjective_pairing (build_index w (snd (build_index w since_cache)))).
  rewrite (second_run_mapping_empty w since_cache Hnd).
  now rewrite !build_index_last_seen.
Qed.

End FolderFacts.

Section FolderExamples.
Import PyStr Discovery Folders Examples.

Lemma rerun_scans_nothing_witness :
  build_index two_sheet_workspace (snd (build_index two_sheet_workspace stale_cache))
  = ([], [("1001", "2024-01-01T00:00:00"); ("1002", "2024-02-02T00:00:00")]).
Proof.
  rewrite (rerun_scans_nothing two_sheet_workspace stale_cache); [reflexivity|].
  vm_compute. constructor; [|constructor; [|constructor]]; simpl; intuition discriminate.
Defined.

End FolderExamples.

(** ** What the patch leaves of a row, and the decision of the monitor *)

Section RowFacts.
Import PyStr Effects Updater Batches.



End RowFacts.

Section DecisionFacts.
Import PyStr Effects Monitor Batches.
Variable cfg : config.
Variable P : platform.

(** X22.  [needs_rollover] answers true exactly when the sheet could be
    fetched and one of the three limits is reached: the number of error
    cells, the number of references as the listing gives it (a listing that
    raises or gives no number counts for nothing), or the number of cells. *)
Theorem needs_rollover_decision (sheet_id : Z) :
  outcome (needs_rollover cfg P sheet_id) =
  Ok match get_sheet P sheet_id with
     | Raise _ => false
     | Ok sh =>
         ((ERR_CELL_LIMIT cfg <=? err_cells sh)
          || saturated cfg P sheet_id
          || (ERR_CELLCOUNT_LIMIT cfg <=? cell_capacity sh))%bool
     end.
Proof.
  unfold needs_rollover, saturated, remote, try_except, bind, print, ret, lift,
    outcome.
  destruct (get_sheet P sheet_id) as [sh|e]; simpl; [|reflexivity].
  destruct (ERR_CELL_LIMIT cfg <=? err_cells sh); simpl; [reflexivity|].
  destruct (list_cross_sheet_references P sheet_id) as [refs|e]; simpl.
  - destruct (refs_saturated cfg refs) as [[|]|e]; simpl; [reflexivity | |];
      destruct (ERR_CELLCOUNT_LIMIT cfg <=? cell_capacity sh); reflexivity.
  - destruct (ERR_CELLCOUNT_LIMIT cfg <=? cell_capacity sh); reflexivity.
Qed.

End DecisionFacts.
